(** * legal-doc-backend: the upload and document-metadata service

    A shallow embedding of [server.js] and [middleware/auth.js].  Every
    route is a function from an environment (what the identity provider,
    the clock, the random generator, Firestore and the file system answer
    during one request), a request and a world (the Firestore collection,
    the local metadata file and the upload directory) to a response and
    the world after the request. *)

From Stdlib Require Import ZArith Lia Ascii String.
From stdpp Require Import base gmap strings list sorting pretty.

Local Open Scope string_scope.
Local Open Scope Z_scope.

(** ** Node library functions used by the source *)

Module NodeLib.

(** [String.prototype.toLowerCase], on the ASCII letters.  The only use in
    the source compares the result with [.pdf], [.docx] and [.txt], and no
    character outside ASCII lower-cases to one of their letters. *)
Definition lower_char (c : ascii) : ascii :=
  let n := nat_of_ascii c in
  if (65 <=? n)%nat && (n <=? 90)%nat then ascii_of_nat (n + 32) else c.

Fixpoint toLowerCase (s : string) : string :=
  match s with
  | EmptyString => EmptyString
  | String c s' => String (lower_char c) (toLowerCase s')
  end.

(** [path.extname] (posix): the loop of Node's implementation, which walks
    the path from its last character down to the first. *)
Record ExtState := {
  startDot : Z;
  startPart : Z;
  end_ : Z;
  matchedSlash : bool;
  preDotState : Z;
}.

Definition ext_init : ExtState :=
  {| startDot := -1; startPart := 0; end_ := -1;
     matchedSlash := true; preDotState := 0 |}.

Definition ext_char (i : Z) (c : ascii) (st : ExtState) : ExtState :=
  let st1 :=
    if end_ st =? -1
    then {| startDot := startDot st; startPart := startPart st; end_ := i + 1;
            matchedSlash := false; preDotState := preDotState st |}
    else st in
  if Ascii.eqb c "."
  then
    if startDot st1 =? -1
    then {| startDot := i; startPart := startPart st1; end_ := end_ st1;
            matchedSlash := matchedSlash st1; preDotState := preDotState st1 |}
    else if negb (preDotState st1 =? 1)
    then {| startDot := startDot st1; startPart := startPart st1; end_ := end_ st1;
            matchedSlash := matchedSlash st1; preDotState := 1 |}
    else st1
  else
    if negb (startDot st1 =? -1)
    then {| startDot := startDot st1; startPart := startPart st1; end_ := end_ st1;
            matchedSlash := matchedSlash st1; preDotState := -1 |}
    else st1.

(** [extname_loop path n st] runs the iterations [i = n-1, ..., 0]. *)
Fixpoint extname_loop (path : string) (n : nat) (st : ExtState) : ExtState :=
  match n with
  | O => st
  | S i =>
      match String.get i path with
      | None => st
      | Some c =>
          if Ascii.eqb c "/"
          then
            if negb (matchedSlash st)
            then {| startDot := startDot st; startPart := Z.of_nat i + 1;
                    end_ := end_ st; matchedSlash := matchedSlash st;
                    preDotState := preDotState st |}
            else extname_loop path i st
          else extname_loop path i (ext_char (Z.of_nat i) c st)
      end
  end.

Definition extname (path : string) : string :=
  let st := extname_loop path (String.length path) ext_init in
  if (startDot st =? -1) || (end_ st =? -1) || (preDotState st =? 0)
     || ((preDotState st =? 1) && (startDot st =? end_ st - 1)
         && (startDot st =? startPart st + 1))
  then ""
  else String.substring (Z.to_nat (startDot st))
                        (Z.to_nat (end_ st - startDot st)) path.

(** [String.prototype.startsWith]. *)
Definition startsWith (s pre : string) : bool := String.prefix pre s.

(** [s.split(sep)[0]]: the part of [s] before the first occurrence of a
    non-empty [sep] (all of [s] when there is none). *)
Fixpoint before_sep (sep s : string) : string :=
  if String.prefix sep s then ""
  else match s with
       | EmptyString => ""
       | String c s' => String c (before_sep sep s')
       end.

(** [s.split(sep)[1]] for an [s] that starts with [sep]: what lies between
    the leading [sep] and its next occurrence. *)
Definition split_second (sep s : string) : string :=
  before_sep sep (String.substring (String.length sep)
                                   (String.length s - String.length sep) s).

(** A number in a template literal or concatenated to a string: its
    decimal digits. *)
Definition num_to_string (n : N) : string := pretty n.

End NodeLib.

(** ** Data model *)

(** JSON values a client can send in [req.body.status]; the source stores
    whatever truthy value arrives. *)
Inductive JsVal :=
  | JUndefined
  | JNull
  | JBool (b : bool)
  | JNum (n : Z)
  | JStr (s : string).

(** JavaScript truthiness, as tested by [!status]. *)
Definition truthy (v : JsVal) : bool :=
  match v with
  | JUndefined | JNull => false
  | JBool b => b
  | JNum n => negb (n =? 0)
  | JStr s => negb (String.eqb s "")
  end.

(** The [uploadedAt] field.  [FieldValue.serverTimestamp()] returns a
    sentinel, not a time: Firestore replaces it by the commit time when the
    document is written, nothing else does.  [JSON.stringify] writes the
    sentinel as an empty object, which is what the local metadata file
    holds for it. *)
Inductive TimeField :=
  | ServerTimestampSentinel
  | Timestamp (t : Z).

(** The decoded identity token attached to [req.user]. *)
Record Principal := {
  uid : string;
  email : option string;
  emailVerified : option bool;
  name : option string;
  picture : option string;
}.

(** [docData], the metadata of one upload. *)
Record Doc := {
  userId : string;
  userEmail : option string;
  fileName : string;
  originalName : string;
  fileType : string;
  fileSize : Z;
  filePath : string;
  status : JsVal;
  uploadedAt : TimeField;
}.

(** A document with its id: an entry [{ id, ...docData }] of the local
    metadata array, or a Firestore document [{ id: doc.id, ...doc.data() }]. *)
Record StoredDoc := {
  id : string;
  fields : Doc;
}.

Definition set_status (s : JsVal) (d : Doc) : Doc :=
  {| userId := userId d; userEmail := userEmail d; fileName := fileName d;
     originalName := originalName d; fileType := fileType d;
     fileSize := fileSize d; filePath := filePath d;
     status := s; uploadedAt := uploadedAt d |}.

Definition set_uploadedAt (t : TimeField) (d : Doc) : Doc :=
  {| userId := userId d; userEmail := userEmail d; fileName := fileName d;
     originalName := originalName d; fileType := fileType d;
     fileSize := fileSize d; filePath := filePath d;
     status := status d; uploadedAt := t |}.

(** The multipart part named [file], as multer sees it. *)
Record IncomingFile := {
  in_originalname : string;
  in_mimetype : string;
  in_size : Z;
}.

(** [req.file] after multer stored the part. *)
Record MulterFile := {
  filename : string;
  originalname : string;
  mimetype : string;
  size : Z;
  path : string;
}.

Record Request := {
  authorization : option string;   (* req.headers.authorization *)
  params_id : string;              (* req.params.id *)
  body_status : JsVal;             (* req.body.status *)
  part_file : option IncomingFile; (* the multipart field [file] *)
}.

(** The content of [uploads/local_metadata.json]. *)
Inductive LocalFile :=
  | Absent                          (* fs.existsSync is false *)
  | Unreadable                      (* reading or JSON.parse throws *)
  | Holding (docs : list StoredDoc). (* a JSON array of records *)

(** The file system is held in two parts: [local_metadata] is the file
    uploads/local_metadata.json (its absence is [Absent]), and [disk] is
    every other file.  The path of the metadata file is therefore never a
    member of [disk]; [readLocalMetadata] and [writeLocalMetadata] work on
    the first part, and [existsSync] and [unlinkSync], which the source
    applies to the filePath of a record, on the second.  The filePath of
    every record the server writes is a name multer made, of the form
    <time>-<random><ext>, and so not the path of the metadata file. *)
Record World := {
  db : bool;                       (* whether [db] is set (fixed at startup) *)
  collection : gmap string Doc;    (* the Firestore collection 'documents' *)
  local_metadata : LocalFile;
  disk : gset string;   (* the existing files other than the metadata file *)
}.

(** What the outside answers during one request. *)
Record Env := {
  dirname : string;                          (* __dirname *)
  verifyIdToken : string → option Principal; (* None: the call rejects *)
  clock_file : N;  (* Date.now() in the multer filename callback *)
  rand_file : N;   (* Math.round(Math.random() * 1e9) there *)
  clock_id : N;    (* Date.now() in the local create branch *)
  rand_id : N;     (* Math.round(Math.random() * 1e9) there *)
  auto_id : string;     (* the id Firestore's add() picks *)
  server_time : Z;      (* the commit time Firestore assigns *)
  firestore_read_fails : bool;   (* an awaited get() rejects *)
  firestore_write_fails : bool;  (* an awaited add/update/delete rejects *)
  writeFile_fails : bool;  (* fs.writeFileSync throws *)
  unlink_fails : bool;     (* fs.unlinkSync throws *)
}.

Inductive Body :=
  | BMessage (success : bool) (message : string)
  | BCreated (message : string) (new_id : string) (data : Doc)
  | BDocuments (documents : list StoredDoc)
  | BDocument (doc_id : string) (data : Doc)
  | BProfile (user : Principal).

Record Response := {
  code : Z;
  body : Body;
}.

Definition respond (c : Z) (b : Body) : Response := {| code := c; body := b |}.

(** [body.success] of a response. *)
Definition success_of (r : Response) : bool :=
  match body r with
  | BMessage s _ => s
  | _ => true
  end.

(** ** Configuration constants of [server.js] *)

Definition MAX_FILE_SIZE_BYTES : Z := 10 * 1024 * 1024.

Definition UPLOAD_DIR (e : Env) : string := dirname e +:+ "/uploads".

Definition ALLOWED_EXTS : gset string := {[ ".pdf"; ".docx"; ".txt" ]}.

Definition ALLOWED_MIME : gset string :=
  {[ "application/pdf";
     "application/vnd.openxmlformats-officedocument.wordprocessingml.document";
     "text/plain" ]}.

(** ** State and exceptions

    A handler body runs inside [try { ... } catch]: a step either returns
    or throws, and what it did to the world before throwing stays done. *)

Inductive Result (A : Type) :=
  | Ok (a : A)
  | Throw.
Arguments Ok {A} a.
Arguments Throw {A}.

Definition M (A : Type) : Type := World → Result A * World.

Definition ret {A} (a : A) : M A := λ w, (Ok a, w).

Definition throw {A} : M A := λ w, (Throw, w).

Definition bind {A B} (m : M A) (f : A → M B) : M B :=
  λ w, match m w with
       | (Ok a, w') => f a w'
       | (Throw, w') => (Throw, w')
       end.

Notation "x <<- m ;; k" := (bind m (λ x, k))
  (at level 100, m at next level, right associativity, only parsing).
Notation "m >>> k" := (bind m (λ _, k))
  (at level 100, right associativity, only parsing).

(** [try { body } catch (err) { return res.status(500).json(...) }]. *)
Definition try_catch (message : string) (body : M Response) (w : World)
  : Response * World :=
  match body w with
  | (Ok r, w') => (r, w')
  | (Throw, w') => (respond 500 (BMessage false message), w')
  end.

Definition set_collection (c : gmap string Doc) (w : World) : World :=
  {| db := db w; collection := c;
     local_metadata := local_metadata w; disk := disk w |}.

Definition set_local_metadata (f : LocalFile) (w : World) : World :=
  {| db := db w; collection := collection w;
     local_metadata := f; disk := disk w |}.

Definition set_disk (d : gset string) (w : World) : World :=
  {| db := db w; collection := collection w;
     local_metadata := local_metadata w; disk := d |}.

(** ** File system *)

Definition existsSync (p : string) : M bool :=
  λ w, (Ok (bool_decide (p ∈ disk w)), w).

Definition unlinkSync (e : Env) (p : string) : M unit :=
  λ w, if unlink_fails e then (Throw, w)
       else (Ok (), set_disk (disk w ∖ {[ p ]}) w).

(** [readLocalMetadata]: a missing file and any read or parse error give the
    empty array. *)
Definition local_docs (w : World) : list StoredDoc :=
  match local_metadata w with
  | Absent => []
  | Unreadable => []
  | Holding docs => docs
  end.

Definition readLocalMetadata : M (list StoredDoc) :=
  λ w, (Ok (local_docs w), w).

(** [writeLocalMetadata]: the [catch] inside logs a warning and returns, so
    the caller never sees a failed write. *)
Definition writeLocalMetadata (e : Env) (arr : list StoredDoc) : M unit :=
  λ w, if writeFile_fails e then (Ok (), w)
       else (Ok (), set_local_metadata (Holding arr) w).

(** ** Firestore, as the source uses it *)

(** [db.collection(COLLECTION).add(docData)]: stores the document under a
    new id, the sentinel replaced by the commit time; rejects when the
    service fails or the id is taken. *)
Definition collection_add (e : Env) (docData : Doc) : M string :=
  λ w, if firestore_write_fails e then (Throw, w)
       else match collection w !! auto_id e with
            | Some _ => (Throw, w)
            | None =>
                (Ok (auto_id e),
                 set_collection
                   (<[auto_id e := set_uploadedAt (Timestamp (server_time e)) docData]>
                      (collection w)) w)
            end.

(** [docRef.get()]: [None] stands for [!doc.exists]. *)
Definition docRef_get (e : Env) (rid : string) : M (option Doc) :=
  λ w, if firestore_read_fails e then (Throw, w)
       else (Ok (collection w !! rid), w).

(** [docRef.update({ status })] on a document that exists. *)
Definition docRef_update (e : Env) (rid : string) (s : JsVal) : M unit :=
  λ w, if firestore_write_fails e then (Throw, w)
       else match collection w !! rid with
            | None => (Throw, w)
            | Some d => (Ok (), set_collection (<[rid := set_status s d]> (collection w)) w)
            end.

(** [docRef.delete()]. *)
Definition docRef_delete (e : Env) (rid : string) : M unit :=
  λ w, if firestore_write_fails e then (Throw, w)
       else (Ok (), set_collection (delete rid (collection w)) w).

(** The order of [orderBy('uploadedAt', 'desc')] on the field.  A stored
    document never holds the sentinel (see [collection_add]); it is placed
    last so that the order is total. *)
Definition time_geb (a b : TimeField) : bool :=
  match a, b with
  | _, ServerTimestampSentinel => true
  | ServerTimestampSentinel, Timestamp _ => false
  | Timestamp x, Timestamp y => y <=? x
  end.

(** Firestore breaks ties of the ordering field by document name, in the
    direction of the last [orderBy]. *)
Definition newest_firstb (a b : StoredDoc) : bool :=
  let ta := uploadedAt (fields a) in
  let tb := uploadedAt (fields b) in
  if time_geb ta tb
  then (if time_geb tb ta then String.leb (id b) (id a) else true)
  else false.

Definition newest_first (a b : StoredDoc) : Prop := newest_firstb a b = true.

#[global] Instance newest_first_dec : RelDecision newest_first.
Proof. intros a b. unfold newest_first. apply _. Defined.

Definition snapshot_docs (c : gmap string Doc) : list StoredDoc :=
  (λ kv, {| id := kv.1; fields := kv.2 |}) <$> map_to_list c.

(** [.where('userId', '==', u).orderBy('uploadedAt', 'desc').get()]. *)
Definition query_by_user (e : Env) (u : string) : M (list StoredDoc) :=
  λ w, if firestore_read_fails e then (Throw, w)
       else (Ok (merge_sort newest_first
                   (filter (λ d, userId (fields d) = u)
                           (snapshot_docs (collection w)))), w).

(** ** middleware/auth.js *)

Import NodeLib.

Definition verifyToken (e : Env) (req : Request) : Response + Principal :=
  match authorization req with
  | None => inl (respond 401 (BMessage false "No token provided"))
  | Some authHeader =>
      if String.eqb authHeader "" || negb (startsWith authHeader "Bearer ")
      then inl (respond 401 (BMessage false "No token provided"))
      else
        let idToken := split_second "Bearer " authHeader in
        match verifyIdToken e idToken with
        | Some decodedToken => inr decodedToken
        | None => inl (respond 401 (BMessage false "Unauthorized"))
        end
  end.

Definition Route : Type := Env → Request → World → Response * World.

(** [app.METHOD(path, verifyToken, next...)]: what follows [verifyToken]
    runs only when it calls [next()]. *)
Definition protect (next : Principal → Route) : Route :=
  λ e req w,
    match verifyToken e req with
    | inl rejection => (rejection, w)
    | inr user => next user e req w
    end.

(** ** Multer *)

Inductive UploadError :=
  | LIMIT_FILE_SIZE      (* err.code of multer's size-limit error *)
  | INVALID_FILE_TYPE    (* err.message of the fileFilter's error *)
  | OTHER_ERROR.         (* anything else passed to next(err) *)

Definition fileFilter (file : IncomingFile) : bool :=
  let ext := toLowerCase (extname (in_originalname file)) in
  let isExtOk := bool_decide (ext ∈ ALLOWED_EXTS) in
  let isMimeOk := bool_decide (in_mimetype file ∈ ALLOWED_MIME) in
  isExtOk && isMimeOk.

(** [storage.filename]. *)
Definition storage_filename (e : Env) (file : IncomingFile) : string :=
  let ext := toLowerCase (extname (in_originalname file)) in
  let unique := num_to_string (clock_file e) +:+ "-" +:+ num_to_string (rand_file e) in
  "upload-" +:+ unique +:+ ext.

(** [upload.single('file')]: without a part named [file] it calls [next()]
    and leaves [req.file] undefined; otherwise the filter runs first, then
    the part is streamed to disk under [limits.fileSize], and a part that
    exceeds the limit is removed again before the error is passed on. *)
Definition upload_single (e : Env) (req : Request) (w : World)
  : (UploadError + option MulterFile) * World :=
  match part_file req with
  | None => (inr None, w)
  | Some file =>
      if fileFilter file
      then
        if MAX_FILE_SIZE_BYTES <? in_size file
        then (inl LIMIT_FILE_SIZE, w)
        else
          let fname := storage_filename e file in
          let fpath := UPLOAD_DIR e +:+ "/" +:+ fname in
          (inr (Some {| filename := fname;
                        originalname := in_originalname file;
                        mimetype := in_mimetype file;
                        size := in_size file;
                        path := fpath |}),
           set_disk ({[ fpath ]} ∪ disk w) w)
      else (inl INVALID_FILE_TYPE, w)
  end.

(** The error-handling middleware at the end of [server.js]. *)
Definition errorHandler (err : UploadError) : Response :=
  match err with
  | LIMIT_FILE_SIZE => respond 413 (BMessage false "File too large. Max 10 MB")
  | INVALID_FILE_TYPE =>
      respond 400 (BMessage false "Invalid file type. Only PDF, DOCX, and TXT allowed.")
  | OTHER_ERROR => respond 500 (BMessage false "Unexpected server error")
  end.

(** ** Route handlers of [server.js] *)

Definition get_db : M bool := λ w, (Ok (db w), w).

Definition docData_of (user : Principal) (file : MulterFile) : Doc :=
  {| userId := uid user;
     userEmail := email user;
     fileName := filename file;
     originalName := originalname file;
     fileType := mimetype file;
     fileSize := size file;
     filePath := path file;
     status := JStr "uploaded";
     uploadedAt := ServerTimestampSentinel |}.

Definition local_id (e : Env) : string :=
  "local-" +:+ num_to_string (clock_id e) +:+ "-" +:+ num_to_string (rand_id e).

(** POST /api/upload, the handler after [upload.single('file')]. *)
Definition upload_body (e : Env) (user : Principal) (file : option MulterFile)
  : M Response :=
  match file with
  | None => ret (respond 400 (BMessage false "No file uploaded"))
  | Some f =>
      let docData := docData_of user f in
      remote <<- get_db ;;
      if remote : bool
      then
        docRef_id <<- collection_add e docData ;;
        ret (respond 201
               (BCreated "File uploaded & metadata saved to Firestore" docRef_id docData))
      else
        all <<- readLocalMetadata ;;
        let new_id := local_id e in
        writeLocalMetadata e ({| id := new_id; fields := docData |} :: all) >>>
        ret (respond 201
               (BCreated "File uploaded & metadata saved locally" new_id docData))
  end.

(** [upload.single('file')] followed by the handler. *)
Definition upload_handler (user : Principal) : Route :=
  λ e req w,
    match upload_single e req w with
    | (inl err, w1) => (errorHandler err, w1)
    | (inr file, w1) => try_catch "Upload failed" (upload_body e user file) w1
    end.

Definition post_upload : Route := protect upload_handler.

(** GET /api/documents. *)
Definition list_body (e : Env) (user : Principal) : M Response :=
  remote <<- get_db ;;
  if remote : bool
  then
    docs <<- query_by_user e (uid user) ;;
    ret (respond 200 (BDocuments docs))
  else
    docs <<- readLocalMetadata ;;
    let userDocs := filter (λ doc, userId (fields doc) = uid user) docs in
    ret (respond 200 (BDocuments userDocs)).

Definition list_handler (user : Principal) : Route :=
  λ e req, try_catch "Failed to list documents" (list_body e user).

Definition get_documents : Route := protect list_handler.

Definition not_found : Response := respond 404 (BMessage false "Document not found").
Definition access_denied : Response := respond 403 (BMessage false "Access denied").

(** [docs.find] and [docs.findIndex] with [(d) => d.id === rid]: the first
    match and its index. *)
Definition find_by_id (rid : string) (docs : list StoredDoc) : option (nat * StoredDoc) :=
  list_find (λ d, id d = rid) docs.

(** GET /api/documents/:id. *)
Definition get_body (e : Env) (user : Principal) (rid : string) : M Response :=
  remote <<- get_db ;;
  if remote : bool
  then
    doc <<- docRef_get e rid ;;
    match doc with
    | None => ret not_found
    | Some docData =>
        if negb (String.eqb (userId docData) (uid user))
        then ret access_denied
        else ret (respond 200 (BDocument rid docData))
    end
  else
    docs <<- readLocalMetadata ;;
    match find_by_id rid docs with
    | None => ret not_found
    | Some (_, found) =>
        if negb (String.eqb (userId (fields found)) (uid user))
        then ret access_denied
        else ret (respond 200 (BDocument (id found) (fields found)))
    end.

Definition get_handler (user : Principal) : Route :=
  λ e req, try_catch "Failed to fetch document" (get_body e user (params_id req)).

Definition get_document : Route := protect get_handler.

(** PATCH /api/documents/:id/status. *)
Definition patch_body (e : Env) (user : Principal) (rid : string) (new_status : JsVal)
  : M Response :=
  if negb (truthy new_status)
  then ret (respond 400 (BMessage false "Missing status value"))
  else
    remote <<- get_db ;;
    if remote : bool
    then
      doc <<- docRef_get e rid ;;
      match doc with
      | None => ret not_found
      | Some docData =>
          if negb (String.eqb (userId docData) (uid user))
          then ret access_denied
          else
            docRef_update e rid new_status >>>
            ret (respond 200 (BMessage true "Status updated"))
      end
    else
      docs <<- readLocalMetadata ;;
      match find_by_id rid docs with
      | None => ret not_found
      | Some (idx, d) =>
          if negb (String.eqb (userId (fields d)) (uid user))
          then ret access_denied
          else
            let updated := {| id := id d; fields := set_status new_status (fields d) |} in
            writeLocalMetadata e (<[idx := updated]> docs) >>>
            ret (respond 200 (BMessage true "Status updated locally"))
      end.

Definition patch_handler (user : Principal) : Route :=
  λ e req,
    try_catch "Failed to update status"
      (patch_body e user (params_id req) (body_status req)).

Definition patch_status : Route := protect patch_handler.

(** [if (filePath && fs.existsSync(filePath)) fs.unlinkSync(filePath)]. *)
Definition remove_file (e : Env) (fpath : string) : M unit :=
  if String.eqb fpath "" then ret ()
  else
    present <<- existsSync fpath ;;
    if present : bool then unlinkSync e fpath else ret ().

(** DELETE /api/documents/:id. *)
Definition delete_body (e : Env) (user : Principal) (rid : string) : M Response :=
  remote <<- get_db ;;
  if remote : bool
  then
    doc <<- docRef_get e rid ;;
    match doc with
    | None => ret not_found
    | Some docData =>
        if negb (String.eqb (userId docData) (uid user))
        then ret access_denied
        else
          remove_file e (filePath docData) >>>
          docRef_delete e rid >>>
          ret (respond 200 (BMessage true "Document deleted"))
    end
  else
    docs <<- readLocalMetadata ;;
    match find_by_id rid docs with
    | None => ret not_found
    | Some (_, d) =>
        if negb (String.eqb (userId (fields d)) (uid user))
        then ret access_denied
        else
          remove_file e (filePath (fields d)) >>>
          let filtered := filter (λ d, id d ≠ rid) docs in
          writeLocalMetadata e filtered >>>
          ret (respond 200 (BMessage true "Document deleted locally"))
    end.

Definition delete_handler (user : Principal) : Route :=
  λ e req, try_catch "Failed to delete document" (delete_body e user (params_id req)).

Definition delete_document : Route := protect delete_handler.

(** GET /api/user/profile. *)
Definition profile_handler (user : Principal) : Route :=
  λ e req w, (respond 200 (BProfile user), w).

Definition get_profile : Route := protect profile_handler.

(** The routes registered behind [verifyToken]. *)
Inductive Endpoint :=
  | PostUpload
  | GetDocuments
  | GetDocument
  | PatchStatus
  | DeleteDocument
  | GetProfile.

(** What each protected route runs once [verifyToken] has called [next()]. *)
Definition after_auth (ep : Endpoint) : Principal → Route :=
  match ep with
  | PostUpload => upload_handler
  | GetDocuments => list_handler
  | GetDocument => get_handler
  | PatchStatus => patch_handler
  | DeleteDocument => delete_handler
  | GetProfile => profile_handler
  end.

Definition serve (ep : Endpoint) : Route := protect (after_auth ep).

(** ** Notions the properties are stated with *)

(** The record a handler fetches for an id: the Firestore document, or the
    first entry of the local array with that id. *)
Definition stored_record (w : World) (rid : string) : option Doc :=
  if db w then collection w !! rid
  else (λ hit, fields hit.2) <$> find_by_id rid (local_docs w).

(** The endpoints that work on one existing record. *)
Definition on_record (ep : Endpoint) : bool :=
  match ep with
  | GetDocument | PatchStatus | DeleteDocument => true
  | _ => false
  end.

(** The endpoints that write to the metadata store. *)
Definition mutating (ep : Endpoint) : bool :=
  match ep with
  | PostUpload | PatchStatus | DeleteDocument => true
  | _ => false
  end.

(** The endpoints whose first store access is a read. *)
Definition reading (ep : Endpoint) : bool :=
  match ep with
  | GetDocuments | GetDocument | PatchStatus | DeleteDocument => true
  | _ => false
  end.

(** The message of the [catch] block of each handler. *)
Definition generic_message (ep : Endpoint) : string :=
  match ep with
  | PostUpload => "Upload failed"
  | GetDocuments => "Failed to list documents"
  | GetDocument => "Failed to fetch document"
  | PatchStatus => "Failed to update status"
  | DeleteDocument => "Failed to delete document"
  | GetProfile => ""
  end.

(** A header that is missing or does not start with [Bearer ]. *)
Definition no_bearer (req : Request) : Prop :=
  authorization req = None ∨
  ∃ h, authorization req = Some h ∧ startsWith h "Bearer " = false.

(** A list ordered by [uploadedAt], latest first. *)
Definition created_ge (a b : StoredDoc) : Prop :=
  time_geb (uploadedAt (fields a)) (uploadedAt (fields b)) = true.

Definition created_desc (docs : list StoredDoc) : Prop :=
  StronglySorted created_ge docs.

(** The validation rules in the order the specification lists them:
    presence, extension, declared content type, size. *)
Inductive Rejection :=
  | NoFileProvided
  | InvalidFileType
  | FileTooLarge.

Definition ext_ok (f : IncomingFile) : bool :=
  bool_decide (toLowerCase (extname (in_originalname f)) ∈ ALLOWED_EXTS).

Definition mime_ok (f : IncomingFile) : bool :=
  bool_decide (in_mimetype f ∈ ALLOWED_MIME).

Definition size_ok (f : IncomingFile) : bool :=
  in_size f <=? MAX_FILE_SIZE_BYTES.

Definition validate_in_order (req : Request) : option Rejection :=
  match part_file req with
  | None => Some NoFileProvided
  | Some f =>
      if negb (ext_ok f) then Some InvalidFileType
      else if negb (mime_ok f) then Some InvalidFileType
      else if negb (size_ok f) then Some FileTooLarge
      else None
  end.

Definition rejection_response (r : Rejection) : Response :=
  match r with
  | NoFileProvided => respond 400 (BMessage false "No file uploaded")
  | InvalidFileType =>
      respond 400 (BMessage false "Invalid file type. Only PDF, DOCX, and TXT allowed.")
  | FileTooLarge => respond 413 (BMessage false "File too large. Max 10 MB")
  end.

(** The store takes the new record: Firestore accepts the [add] under an
    unused id, or the local metadata file can be written. *)
Definition store_accepts (e : Env) (w : World) : Prop :=
  if db w
  then firestore_write_fails e = false ∧ collection w !! auto_id e = None
  else writeFile_fails e = false.

(** The number of metadata records of the selected backend. *)
Definition record_count (w : World) : nat :=
  if db w then base.size (collection w) else length (local_docs w).

(** The store carries out a delete: Firestore accepts it, or the local
    metadata file can be written. *)
Definition store_deletes (e : Env) (w : World) : Prop :=
  if db w then firestore_write_fails e = false else writeFile_fails e = false.

(** Removing the file at [p] goes through: there is nothing to unlink, or
    [unlinkSync] does not throw. *)
Definition unlink_ok (e : Env) (w : World) (p : string) : Prop :=
  p = "" ∨ p ∉ disk w ∨ unlink_fails e = false.

(** ** Concrete requests and worlds, used to run the routes *)

Definition alice : Principal :=
  {| uid := "alice"; email := Some "alice@example.com";
     emailVerified := Some true; name := Some "Alice"; picture := None |}.

Definition bob : Principal :=
  {| uid := "bob"; email := Some "bob@example.com";
     emailVerified := Some false; name := None; picture := None |}.

Definition sample_idp (token : string) : option Principal :=
  if String.eqb token "token-alice" then Some alice
  else if String.eqb token "token-bob" then Some bob
  else None.

Definition sample_env : Env :=
  {| dirname := "/srv/app";
     verifyIdToken := sample_idp;
     clock_file := 1700000000000; rand_file := 123456789;
     clock_id := 1700000000005; rand_id := 42;
     auto_id := "Zq3xAutoId"; server_time := 1700000000100;
     firestore_read_fails := false; firestore_write_fails := false;
     writeFile_fails := false; unlink_fails := false |}.

Definition with_faults (read_f write_f file_f unlink_f : bool) (e : Env) : Env :=
  {| dirname := dirname e; verifyIdToken := verifyIdToken e;
     clock_file := clock_file e; rand_file := rand_file e;
     clock_id := clock_id e; rand_id := rand_id e;
     auto_id := auto_id e; server_time := server_time e;
     firestore_read_fails := read_f; firestore_write_fails := write_f;
     writeFile_fails := file_f; unlink_fails := unlink_f |}.

Definition sample_doc (owner : Principal) (stored_as : string) (t : TimeField) : Doc :=
  {| userId := uid owner; userEmail := email owner;
     fileName := stored_as; originalName := "lease.pdf";
     fileType := "application/pdf"; fileSize := 2048;
     filePath := "/srv/app/uploads/" +:+ stored_as;
     status := JStr "uploaded"; uploadedAt := t |}.

Definition doc_a1 : Doc := sample_doc alice "upload-1-1.pdf" (Timestamp 1000).
Definition doc_a2 : Doc := sample_doc alice "upload-2-2.pdf" (Timestamp 2000).
Definition doc_b1 : Doc := sample_doc bob "upload-3-3.pdf" (Timestamp 3000).

Definition sample_disk : gset string :=
  {[ "/srv/app/uploads/upload-1-1.pdf";
     "/srv/app/uploads/upload-2-2.pdf";
     "/srv/app/uploads/upload-3-3.pdf" ]}.

Definition local_world : World :=
  {| db := false; collection := ∅;
     local_metadata :=
       Holding [ {| id := "local-1-1"; fields := doc_a1 |};
                 {| id := "local-2-2"; fields := doc_a2 |};
                 {| id := "local-3-3"; fields := doc_b1 |} ];
     disk := sample_disk |}.

Definition remote_world : World :=
  {| db := true;
     collection := {[ "docA1" := doc_a1; "docA2" := doc_a2; "docB1" := doc_b1 ]};
     local_metadata := Absent;
     disk := sample_disk |}.

Definition request (auth : option string) (rid : string) (st : JsVal)
  (file : option IncomingFile) : Request :=
  {| authorization := auth; params_id := rid; body_status := st; part_file := file |}.

Definition small_pdf : IncomingFile :=
  {| in_originalname := "Lease.PDF"; in_mimetype := "application/pdf"; in_size := 1024 |}.

(** An executable renamed to .pdf, declared with its real content type and
    larger than the limit. *)
Definition exe_as_pdf : IncomingFile :=
  {| in_originalname := "setup.pdf"; in_mimetype := "application/x-msdownload";
     in_size := 20 * 1024 * 1024 |}.

(** ** Notions for the properties of whole requests *)

(** The endpoints whose handlers only read. *)
Definition read_only (ep : Endpoint) : bool :=
  match ep with
  | GetDocuments | GetDocument | GetProfile => true
  | _ => false
  end.

(** The metadata records of the selected backend, each with its id. *)
Definition records (w : World) : list StoredDoc :=
  if db w then snapshot_docs (collection w) else local_docs w.

(** [d'] is [d] with at most the status replaced. *)
Definition same_but_status (d d' : Doc) : Prop :=
  d' = set_status (status d') d.

(** The path multer stores an accepted part under. *)
Definition stored_path (e : Env) (f : IncomingFile) : string :=
  UPLOAD_DIR e +:+ "/" +:+ storage_filename e f.

(** [req.file] for an accepted part. *)
Definition accepted_file (e : Env) (f : IncomingFile) : MulterFile :=
  {| filename := storage_filename e f;
     originalname := in_originalname f;
     mimetype := in_mimetype f;
     size := in_size f;
     path := stored_path e f |}.

(** The world once multer has stored an accepted part. *)
Definition after_multer (e : Env) (f : IncomingFile) (w : World) : World :=
  set_disk ({[ stored_path e f ]} ∪ disk w) w.

(** The document Firestore stores for an upload. *)
Definition remote_doc (e : Env) (user : Principal) (f : IncomingFile) : Doc :=
  set_uploadedAt (Timestamp (server_time e)) (docData_of user (accepted_file e f)).

(** The entry the local branch writes for an upload. *)
Definition local_entry (e : Env) (user : Principal) (f : IncomingFile) : StoredDoc :=
  {| id := local_id e; fields := docData_of user (accepted_file e f) |}.

(** The changes one request of an authenticated caller can make to the
    world; [request_changes] below shows that the handlers make no other. *)
Inductive Change (e : Env) (req : Request) (user : Principal) (w : World)
  : World → Prop :=
  | change_none :
      Change e req user w w
  | change_file f :
      part_file req = Some f →
      validate_in_order req = None →
      Change e req user w (after_multer e f w)
  | change_add_remote f :
      part_file req = Some f →
      validate_in_order req = None →
      db w = true →
      collection w !! auto_id e = None →
      Change e req user w
        (set_collection (<[auto_id e := remote_doc e user f]> (collection w))
           (after_multer e f w))
  | change_add_local f :
      part_file req = Some f →
      validate_in_order req = None →
      db w = false →
      Change e req user w
        (set_local_metadata (Holding (local_entry e user f :: local_docs w))
           (after_multer e f w))
  | change_status_remote d :
      db w = true →
      collection w !! params_id req = Some d →
      userId d = uid user →
      Change e req user w
        (set_collection
           (<[params_id req := set_status (body_status req) d]> (collection w)) w)
  | change_status_local idx sd :
      db w = false →
      find_by_id (params_id req) (local_docs w) = Some (idx, sd) →
      userId (fields sd) = uid user →
      Change e req user w
        (set_local_metadata
           (Holding (<[idx := {| id := id sd;
                                 fields := set_status (body_status req) (fields sd) |}]>
                       (local_docs w))) w)
  | change_delete d w1 :
      stored_record w (params_id req) = Some d →
      userId d = uid user →
      w1 = w ∨ w1 = set_disk (disk w ∖ {[ filePath d ]}) w →
      Change e req user w
        (if db w
         then set_collection (delete (params_id req) (collection w)) w1
         else set_local_metadata
                (Holding (filter (λ r, id r ≠ params_id req) (local_docs w))) w1)
  | change_unlink d :
      stored_record w (params_id req) = Some d →
      userId d = uid user →
      Change e req user w (set_disk (disk w ∖ {[ filePath d ]}) w).

(** The store carries out an update: Firestore accepts it, or the local
    metadata file can be written. *)
Definition store_updates (e : Env) (w : World) : Prop :=
  if db w then firestore_write_fails e = false else writeFile_fails e = false.

(** The upload did not reach the store: Firestore rejects the [add] (or
    the id is taken), or the local metadata file cannot be written. *)
Definition store_refuses (e : Env) (w : World) : Prop :=
  if db w
  then firestore_write_fails e = true ∨ is_Some (collection w !! auto_id e)
  else writeFile_fails e = true.

(** Serving a batch of uploads one after another. *)
Fixpoint run_uploads (batch : list (Env * Request)) (w : World) : World :=
  match batch with
  | [] => w
  | (e, req) :: rest => run_uploads rest (post_upload e req w).2
  end.

(** An upload that is authenticated, passes validation and can be written
    to the local metadata file. *)
Definition good_local_upload (job : Env * Request) : Prop :=
  (∃ user, verifyToken job.1 job.2 = inr user)
  ∧ validate_in_order job.2 = None
  ∧ writeFile_fails job.1 = false.

(** More worlds and environments to run the routes in. *)
Definition garbled_world : World :=
  {| db := false; collection := ∅; local_metadata := Unreadable; disk := sample_disk |}.

Definition second_upload_env : Env :=
  {| dirname := "/srv/app"; verifyIdToken := sample_idp;
     clock_file := 1700000000900; rand_file := 7;
     clock_id := 1700000000901; rand_id := 8;
     auto_id := "Zq3xAutoId2"; server_time := 1700000000950;
     firestore_read_fails := false; firestore_write_fails := false;
     writeFile_fails := false; unlink_fails := false |}.

Definition empty_local_world : World :=
  {| db := false; collection := ∅; local_metadata := Absent; disk := ∅ |}.

(** Strings of decimal digits, and strings without a space. *)
Definition is_digit (c : ascii) : bool :=
  let n := nat_of_ascii c in (48 <=? n)%nat && (n <=? 57)%nat.

Fixpoint all_digits (s : string) : bool :=
  match s with
  | EmptyString => true
  | String c s' => is_digit c && all_digits s'
  end.

Fixpoint no_space (s : string) : bool :=
  match s with
  | EmptyString => true
  | String c s' => negb (Ascii.eqb c " ") && no_space s'
  end.

(** ** Startup: choosing the backend (server.js, lines 25-83) *)

Module Startup.

(** The four variables of [process.env] the startup code reads. *)
Record ProcessEnv := {
  FIREBASE_SERVICE_ACCOUNT_PATH : option string;
  FIREBASE_PRIVATE_KEY : option string;
  FIREBASE_CLIENT_EMAIL : option string;
  FIREBASE_PROJECT_ID : option string;
}.

(** Truthiness of a variable or field: defined and not the empty string. *)
Definition is_set (v : option string) : bool :=
  match v with
  | Some s => negb (String.eqb s "")
  | None => false
  end.

(** [a || b] on such values. *)
Definition js_or (a b : option string) : option string :=
  if is_set a then a else b.

(** The fields of a credential object the code looks at: those of a
    service-account file, in either spelling. *)
Record Credential := {
  project_id : option string;
  projectId : option string;
  client_email : option string;
  clientEmail : option string;
  private_key : option string;
  privateKey : option string;
}.

(** What reading and parsing a file gives: [Parsed None] is a falsy JSON
    value such as [null]. *)
Inductive FileContent :=
  | NoSuchFile
  | ReadOrParseError
  | Parsed (json : option Credential).

(** The object passed to [admin.credential.cert]. *)
Record Cert := {
  cert_projectId : option string;
  cert_clientEmail : option string;
  cert_privateKey : option string;
}.

(** What the host answers at startup. *)
Record Host := {
  host_dirname : string;                      (* __dirname *)
  path_join : string → string → string;       (* path.join *)
  file_at : string → FileContent;             (* existsSync, readFileSync, JSON.parse *)
  initialize_throws : Cert → bool;            (* initializeApp / cert / firestore throw *)
}.

(** [path.isAbsolute] (posix). *)
Definition isAbsolute (p : string) : bool := String.prefix "/" p.

Definition loadServiceAccountFromPath (h : Host) (p : string) : option Credential :=
  let full := if isAbsolute p then p else path_join h (host_dirname h) p in
  match file_at h full with
  | NoSuchFile => None
  | ReadOrParseError => None
  | Parsed json => json
  end.

Definition single_quote : ascii := ascii_of_nat 39.
Definition double_quote : ascii := ascii_of_nat 34.
Definition backslash : ascii := ascii_of_nat 92.
Definition newline : ascii := ascii_of_nat 10.

Definition is_quote (c : ascii) : bool :=
  Ascii.eqb c single_quote || Ascii.eqb c double_quote.

(** The two alternatives of the pattern that strips wrapping quotes: one
    quote at the start, one quote at the end of what is left. *)
Definition strip_leading_quote (s : string) : string :=
  match s with
  | String c rest => if is_quote c then rest else s
  | EmptyString => EmptyString
  end.

Fixpoint strip_trailing_quote (s : string) : string :=
  match s with
  | EmptyString => EmptyString
  | String c EmptyString => if is_quote c then EmptyString else s
  | String c rest => String c (strip_trailing_quote rest)
  end.

Definition strip_quotes (s : string) : string :=
  strip_trailing_quote (strip_leading_quote s).

(** Replacing every backslash-n pair by a line feed, left to right. *)
Fixpoint unescape_newlines (s : string) : string :=
  match s with
  | EmptyString => EmptyString
  | String c rest =>
      match rest with
      | EmptyString => String c EmptyString
      | String c2 rest2 =>
          if Ascii.eqb c backslash && Ascii.eqb c2 "n"
          then String newline (unescape_newlines rest2)
          else String c (unescape_newlines rest)
      end
  end.

Definition normalize_key (rawKey : string) : string :=
  unescape_newlines (strip_quotes rawKey).

(** The credential the startup code settles on, if any. *)
Definition find_credential (env : ProcessEnv) (h : Host) : option Credential :=
  let from_file :=
    match FIREBASE_SERVICE_ACCOUNT_PATH env with
    | Some p => if String.eqb p "" then None else loadServiceAccountFromPath h p
    | None => None
    end in
  match from_file with
  | Some cred => Some cred
  | None =>
      if is_set (FIREBASE_PRIVATE_KEY env) && is_set (FIREBASE_CLIENT_EMAIL env)
         && is_set (FIREBASE_PROJECT_ID env)
      then Some {| project_id := FIREBASE_PROJECT_ID env;
                   projectId := None;
                   client_email := FIREBASE_CLIENT_EMAIL env;
                   clientEmail := None;
                   private_key := normalize_key <$> FIREBASE_PRIVATE_KEY env;
                   privateKey := None |}
      else None
  end.

Definition cert_of (env : ProcessEnv) (cred : Credential) : Cert :=
  {| cert_projectId :=
       js_or (project_id cred) (js_or (projectId cred) (FIREBASE_PROJECT_ID env));
     cert_clientEmail :=
       js_or (client_email cred) (js_or (clientEmail cred) (FIREBASE_CLIENT_EMAIL env));
     cert_privateKey :=
       js_or (private_key cred)
         (js_or (privateKey cred)
            (Some (unescape_newlines (default "" (js_or (FIREBASE_PRIVATE_KEY env)
                                                    (Some "")))))) |}.

(** The outcome of startup: the certificate Firestore was initialised with,
    or [None] when [db] stays null and the local store is used. *)
Definition select_backend (env : ProcessEnv) (h : Host) : option Cert :=
  match find_credential env h with
  | Some cred =>
      let cert := cert_of env cred in
      if initialize_throws h cert then None else Some cert
  | None => None
  end.

(** Writing a key the way a .env file holds it: line feeds as backslash-n. *)
Fixpoint escape_newlines (s : string) : string :=
  match s with
  | EmptyString => EmptyString
  | String c rest =>
      if Ascii.eqb c newline
      then String backslash (String "n" (escape_newlines rest))
      else String c (escape_newlines rest)
  end.

Fixpoint no_backslash (s : string) : bool :=
  match s with
  | EmptyString => true
  | String c rest => negb (Ascii.eqb c backslash) && no_backslash rest
  end.

Definition wrap (q : ascii) (s : string) : string :=
  String q (s +:+ String q EmptyString).

End Startup.

(** A host with a service-account file at /etc/sa.json, and an environment
    that names it and also carries the three discrete values. *)
Definition sample_account : Startup.Credential :=
  {| Startup.project_id := Some "proj-file";
     Startup.projectId := None;
     Startup.client_email := Some "sa@proj-file.example";
     Startup.clientEmail := None;
     Startup.private_key := Some "KEY-FROM-FILE";
     Startup.privateKey := None |}.

Definition sample_host : Startup.Host :=
  {| Startup.host_dirname := "/srv/app";
     Startup.path_join := λ a b, a +:+ "/" +:+ b;
     Startup.file_at := λ p, if String.eqb p "/etc/sa.json"
                             then Startup.Parsed (Some sample_account)
                             else Startup.NoSuchFile;
     Startup.initialize_throws := λ _, false |}.

Definition sample_process_env (sa_path : option string) : Startup.ProcessEnv :=
  {| Startup.FIREBASE_SERVICE_ACCOUNT_PATH := sa_path;
     Startup.FIREBASE_PRIVATE_KEY := Some "'KEY\nFROM\nENV'";
     Startup.FIREBASE_CLIENT_EMAIL := Some "sa@proj-env.example";
     Startup.FIREBASE_PROJECT_ID := Some "proj-env" |}.

(** ** routes/documents.js: the router without authentication

    Its [db] is the Firestore handle exported by [../firebase], a module
    that is not among the sources; the routes use it unconditionally.  The
    POST route is left out: it converts the posted size with [Number]. *)

Module DocumentsRouter.

(** GET / *)
Definition list_all (e : Env) : World → Response * World :=
  try_catch "Failed to list documents"
    (λ w, if firestore_read_fails e then (Throw, w)
          else (Ok (respond 200
                      (BDocuments (merge_sort newest_first
                                     (snapshot_docs (collection w))))), w)).

(** GET /:id *)
Definition get_one (e : Env) (rid : string) : World → Response * World :=
  try_catch "Failed to fetch document"
    (doc <<- docRef_get e rid ;;
     match doc with
     | None => ret not_found
     | Some docData => ret (respond 200 (BDocument rid docData))
     end).

(** PATCH /:id/status *)
Definition update_status (e : Env) (rid : string) (new_status : JsVal)
  : World → Response * World :=
  try_catch "Failed to update status"
    (if negb (truthy new_status)
     then ret (respond 400 (BMessage false "Missing status value"))
     else
       docRef_update e rid new_status >>>
       ret (respond 200 (BMessage true "Status updated"))).

(** DELETE /:id *)
Definition delete_one (e : Env) (rid : string) : World → Response * World :=
  try_catch "Failed to delete document"
    (docRef_delete e rid >>>
     ret (respond 200 (BMessage true "Document deleted"))).

End DocumentsRouter.

(** Characters other than the dot and the slash, and strings made of them. *)
Definition is_plain (c : ascii) : bool :=
  negb (Ascii.eqb c ".") && negb (Ascii.eqb c "/").

Fixpoint all_plain (s : string) : bool :=
  match s with
  | EmptyString => true
  | String c s' => is_plain c && all_plain s'
  end.

(** The loop state once the end of the name is known, a dot may have been
    seen, and characters before the dot may have been seen. *)
Definition scanning (dot : Z) (stop : Z) (before : Z) : ExtState :=
  {| startDot := dot; startPart := 0; end_ := stop;
     matchedSlash := false; preDotState := before |}.


(** ** Runs of requests, and what they leave in the local store *)

(** A request together with the route it is sent to. *)
Definition Job : Type := Endpoint * Env * Request.

(** Serving requests one after another. *)
Fixpoint serve_all (jobs : list Job) (w : World) : World :=
  match jobs with
  | [] => w
  | (ep, e, req) :: rest => serve_all rest (serve ep e req w).2
  end.

(** The entry [sd] was written by the [k]-th request of the run: a valid,
    authenticated upload, whose id and caller the entry carries. *)
Definition created_by (jobs : list Job) (k : nat) (sd : StoredDoc) : Prop :=
  ∃ e req user,
    jobs !! k = Some (PostUpload, e, req)
    ∧ verifyToken e req = inr user
    ∧ validate_in_order req = None
    ∧ id sd = local_id e
    ∧ userId (fields sd) = uid user
    ∧ uploadedAt (fields sd) = ServerTimestampSentinel.

Definition later (a b : nat) : Prop := (b < a)%nat.

(** The entries are in the order latest created first: going down the
    list, the requests that created them come strictly earlier in the run. *)
Definition latest_created_first (jobs : list Job) (docs : list StoredDoc) : Prop :=
  ∃ ks, Forall2 (created_by jobs) ks docs ∧ StronglySorted later ks.

(** ** Concurrent local creates *)

(** The awaits of an upload (verifyIdToken, and multer storing the part)
    come before the handler body and touch [disk] only.  The local branch
    of the body (server.js 187-190) has no await: once a request reaches
    it, the read of the metadata file, the unshift and the write run to the
    end before the event loop takes up another request.  Concurrent
    requests of one server process therefore leave the metadata file that
    [run_uploads] leaves on serving them whole, in the order in which they
    reach the branch.  Writers outside that event loop are not held back by
    anything: the source takes no lock on the file. *)

(** The (time, random) pair a local id is built from. *)
Definition draw (job : Env * Request) : N * N :=
  (clock_id job.1, rand_id job.1).

Definition id_of_draw (d : N * N) : string :=
  "local-" +:+ num_to_string d.1 +:+ "-" +:+ num_to_string d.2.

(** The two file accesses of the local create branch (server.js 187-190):
    [readLocalMetadata()], and [writeLocalMetadata] of the array that was
    read with the new entry put in front. *)
Definition create_read (w : World) : list StoredDoc := local_docs w.

Definition create_write (e : Env) (entry : StoredDoc) (all : list StoredDoc)
  (w : World) : World :=
  (writeLocalMetadata e (entry :: all) w).2.

(** Two writers that do not exclude each other (two server processes on one
    upload directory): both read, then both write. *)
Definition interleaved_creates (eA eB : Env) (entryA entryB : StoredDoc)
  (w : World) : World :=
  let allA := create_read w in
  let allB := create_read w in
  create_write eB entryB allB (create_write eA entryA allA w).

(** A run against the local store: alice uploads, bob uploads, alice sets
    the status of her record, alice uploads again. *)
Definition third_upload_env : Env :=
  {| dirname := "/srv/app"; verifyIdToken := sample_idp;
     clock_file := 1700000001800; rand_file := 11;
     clock_id := 1700000001801; rand_id := 12;
     auto_id := "Zq3xAutoId3"; server_time := 1700000001900;
     firestore_read_fails := false; firestore_write_fails := false;
     writeFile_fails := false; unlink_fails := false |}.

Definition sample_run : list Job :=
  [ (PostUpload, sample_env,
     request (Some "Bearer token-alice") "" JUndefined (Some small_pdf));
    (PostUpload, second_upload_env,
     request (Some "Bearer token-bob") "" JUndefined (Some small_pdf));
    (PatchStatus, sample_env,
     request (Some "Bearer token-alice") (local_id sample_env) (JStr "reviewed") None);
    (PostUpload, third_upload_env,
     request (Some "Bearer token-alice") "" JUndefined (Some small_pdf)) ].

(** Two uploads that reach the local branch at the same time, and two that
    draw the same (time, random) pair. *)
Definition two_uploads : list (Env * Request) :=
  [ (sample_env, request (Some "Bearer token-alice") "" JUndefined (Some small_pdf));
    (second_upload_env,
     request (Some "Bearer token-bob") "" JUndefined (Some small_pdf)) ].

Definition same_draw_uploads : list (Env * Request) :=
  [ (sample_env, request (Some "Bearer token-alice") "" JUndefined (Some small_pdf));
    (sample_env, request (Some "Bearer token-bob") "" JUndefined (Some small_pdf)) ].

(** * Properties *)

(** ** The library functions on sample inputs *)

Example extname_upper : NodeLib.extname "Lease.PDF" = ".PDF".
Proof. reflexivity. Qed.

Example extname_last_dot : NodeLib.extname "archive.tar.gz" = ".gz".
Proof. reflexivity. Qed.

Example extname_dotfile : NodeLib.extname ".bashrc" = "".
Proof. reflexivity. Qed.

Example extname_in_directory : NodeLib.extname "dir.d/notes" = "".
Proof. reflexivity. Qed.

Example bearer_token_of_header :
  NodeLib.split_second "Bearer " "Bearer token-alice" = "token-alice".
Proof. reflexivity. Qed.

Example filter_accepts_small_pdf : fileFilter small_pdf = true.
Proof. reflexivity. Qed.

Example local_id_sample : local_id sample_env = "local-1700000000005-42".
Proof. reflexivity. Qed.

(** ** Authentication *)

Lemma verifyToken_no_bearer e req :
  no_bearer req →
  verifyToken e req = inl (respond 401 (BMessage false "No token provided")).
Proof.
  intros [Hnone | (h & Hh & Hpre)]; unfold verifyToken.
  - by rewrite Hnone.
  - rewrite Hh, Hpre. simpl. by rewrite orb_true_r.
Qed.

Lemma verifyToken_invalid e req h :
  authorization req = Some h →
  startsWith h "Bearer " = true →
  verifyIdToken e (split_second "Bearer " h) = None →
  verifyToken e req = inl (respond 401 (BMessage false "Unauthorized")).
Proof.
  intros Hh Hpre Hver. unfold verifyToken. rewrite Hh, Hpre.
  destruct (String.eqb_spec h "") as [-> | _]; [discriminate Hpre |].
  simpl. by rewrite Hver.
Qed.

(** C5. A request to a protected route whose Authorization header is missing
    or does not start with "Bearer " is answered 401 "No token provided";
    one whose bearer token the identity provider rejects is answered 401
    "Unauthorized".  In both cases the answer and the world do not depend on
    what is registered after [verifyToken] (the handler is not run), and the
    world is left as it was. *)
Theorem unauthenticated_request_rejected
  (ep : Endpoint) (next : Principal → Route) (e : Env) (req : Request) (w : World) :
  (no_bearer req →
     serve ep e req w = (respond 401 (BMessage false "No token provided"), w) ∧
     protect next e req w = (respond 401 (BMessage false "No token provided"), w))
  ∧
  (∀ h, authorization req = Some h →
        startsWith h "Bearer " = true →
        verifyIdToken e (split_second "Bearer " h) = None →
     serve ep e req w = (respond 401 (BMessage false "Unauthorized"), w) ∧
     protect next e req w = (respond 401 (BMessage false "Unauthorized"), w)).
Proof.
  split.
  - intros Hno. unfold serve, protect.
    by rewrite (verifyToken_no_bearer e req Hno).
  - intros h Hh Hpre Hver. unfold serve, protect.
    by rewrite (verifyToken_invalid e req h Hh Hpre Hver).
Qed.

Lemma unauthenticated_request_rejected_witness :
  post_upload sample_env (request None "" JUndefined (Some small_pdf)) local_world
    = (respond 401 (BMessage false "No token provided"), local_world)
  ∧ delete_document sample_env (request (Some "Bearer forged") "local-1-1" JUndefined None)
      local_world
    = (respond 401 (BMessage false "Unauthorized"), local_world).
Proof.
  split.
  - apply (unauthenticated_request_rejected PostUpload upload_handler sample_env
             (request None "" JUndefined (Some small_pdf)) local_world).
    left. reflexivity.
  - destruct (unauthenticated_request_rejected DeleteDocument delete_handler sample_env
                (request (Some "Bearer forged") "local-1-1" JUndefined None) local_world)
      as [_ Hinvalid].
    destruct (Hinvalid "Bearer forged" eq_refl eq_refl eq_refl) as [_ Hprotect].
    exact Hprotect.
Defined.

(** ** Ownership *)

Lemma serve_authenticated ep e req w user :
  verifyToken e req = inr user →
  serve ep e req w = after_auth ep user e req w.
Proof. intros Hauth. unfold serve, protect. by rewrite Hauth. Qed.

Lemma not_owner_test (owner caller : string) :
  owner ≠ caller → negb (String.eqb owner caller) = true.
Proof. intros Hne. by destruct (String.eqb_spec owner caller). Qed.

Lemma owner_test (owner caller : string) :
  owner = caller → negb (String.eqb owner caller) = false.
Proof. intros ->. by rewrite String.eqb_refl. Qed.

(** What [stored_record] says in each backend. *)
Lemma stored_record_remote w rid d :
  db w = true → stored_record w rid = Some d → collection w !! rid = Some d.
Proof. unfold stored_record. by intros ->. Qed.

Lemma stored_record_local w rid d :
  db w = false → stored_record w rid = Some d →
  ∃ idx hit, find_by_id rid (local_docs w) = Some (idx, hit) ∧ fields hit = d.
Proof.
  unfold stored_record. intros ->. 
  destruct (find_by_id rid (local_docs w)) as [[idx hit]|] eqn:Hfind; [|done].
  simpl. intros [= <-]. eauto.
Qed.

(** C1, as the code has it.  For an authenticated request to getById or
    delete, or to updateStatus with a non-empty status value, on a record
    that exists, is fetched without a store failure and belongs to another
    principal, either backend answers 403 "Access denied", which is not the
    404 answer, and the world (record fields, files on disk) is unchanged.
    An updateStatus request whose status is missing or empty is answered 400
    before any record is looked up, the world unchanged as well. *)
Theorem non_owner_access_denied
  (ep : Endpoint) (e : Env) (req : Request) (w : World) (user : Principal) (d : Doc) :
  on_record ep = true →
  verifyToken e req = inr user →
  stored_record w (params_id req) = Some d →
  userId d ≠ uid user →
  (db w = true → firestore_read_fails e = false) →
  (ep ≠ PatchStatus ∨ truthy (body_status req) = true →
     serve ep e req w = (access_denied, w))
  ∧ (ep = PatchStatus → truthy (body_status req) = false →
     serve ep e req w = (respond 400 (BMessage false "Missing status value"), w))
  ∧ code access_denied = 403
  ∧ code not_found = 404.
Proof.
  intros Hrec Hauth Hstored Hne Hread.
  rewrite (serve_authenticated ep e req w user Hauth).
  pose proof (not_owner_test _ _ Hne) as Htest.
  split; [| split; [| done]].
  - intros Hstatus.
    assert (Hpatch : ep = PatchStatus → truthy (body_status req) = true).
    { intros ->. destruct Hstatus as [Hx | Hx]; [done | exact Hx]. }
    destruct (db w) eqn:Hdb.
    + apply (stored_record_remote w _ d Hdb) in Hstored.
      specialize (Hread eq_refl).
      destruct ep; try discriminate Hrec; simpl;
        unfold get_handler, patch_handler, delete_handler, try_catch,
          get_body, patch_body, delete_body, bind, get_db, docRef_get, ret;
        rewrite ?Hpatch by done; simpl;
        by rewrite Hdb, Hread, Hstored, Htest.
    + destruct (stored_record_local w _ d Hdb Hstored) as (idx & hit & Hfind & <-).
      destruct ep; try discriminate Hrec; simpl;
        unfold get_handler, patch_handler, delete_handler, try_catch,
          get_body, patch_body, delete_body, bind, get_db, readLocalMetadata, ret;
        rewrite ?Hpatch by done; simpl;
        by rewrite Hdb, Hfind, Htest.
  - intros -> Hfalsy. simpl.
    unfold patch_handler, try_catch, patch_body. by rewrite Hfalsy.
Qed.

Lemma non_owner_access_denied_witness :
  delete_document sample_env
    (request (Some "Bearer token-bob") "docA1" JUndefined None) remote_world
  = (access_denied, remote_world).
Proof.
  apply (non_owner_access_denied DeleteDocument sample_env
           (request (Some "Bearer token-bob") "docA1" JUndefined None)
           remote_world bob doc_a1);
    [reflexivity | reflexivity | reflexivity | discriminate | reflexivity
    | left; discriminate].
Defined.

(** Counterexample to C1 as stated: bob sends PATCH /api/documents/docA1/status
    without a status; alice owns docA1; the answer is 400, not 403. *)
Lemma non_owner_patch_without_status_gets_400 :
  verifyToken sample_env (request (Some "Bearer token-bob") "docA1" JUndefined None)
    = inr bob
  ∧ stored_record remote_world "docA1" = Some doc_a1
  ∧ userId doc_a1 ≠ uid bob
  ∧ patch_status sample_env
      (request (Some "Bearer token-bob") "docA1" JUndefined None) remote_world
    = (respond 400 (BMessage false "Missing status value"), remote_world)
  ∧ respond 400 (BMessage false "Missing status value") ≠ access_denied.
Proof.
  split; [reflexivity |]. split; [reflexivity |].
  split; [discriminate |]. split; [reflexivity | discriminate].
Qed.

(** ** Listing *)

Lemma time_geb_total a b : time_geb a b = true ∨ time_geb b a = true.
Proof. destruct a, b; simpl; auto. rewrite !Z.leb_le. lia. Qed.

Lemma time_geb_trans a b c :
  time_geb a b = true → time_geb b c = true → time_geb a c = true.
Proof. destruct a, b, c; simpl; try done. rewrite !Z.leb_le. lia. Qed.

#[local] Instance newest_first_total : Total newest_first.
Proof.
  intros a b. unfold newest_first, newest_firstb.
  destruct (time_geb (uploadedAt (fields a)) (uploadedAt (fields b))) eqn:Hab,
           (time_geb (uploadedAt (fields b)) (uploadedAt (fields a))) eqn:Hba;
    auto.
  - destruct (String.leb_total (id a) (id b)); auto.
  - destruct (time_geb_total (uploadedAt (fields a)) (uploadedAt (fields b)));
      congruence.
Qed.

#[local] Instance created_ge_trans : Transitive created_ge.
Proof. intros a b c. unfold created_ge. apply time_geb_trans. Qed.

Lemma newest_first_created_ge a b : newest_first a b → created_ge a b.
Proof.
  unfold newest_first, newest_firstb, created_ge.
  by destruct (time_geb (uploadedAt (fields a)) (uploadedAt (fields b))).
Qed.

Lemma Sorted_weaken {A} (R R' : relation A) (l : list A) :
  (∀ a b, R a b → R' a b) → Sorted R l → Sorted R' l.
Proof.
  intros Himpl. induction 1 as [| x l _ IH Hhd]; constructor; [exact IH |].
  destruct Hhd; constructor; auto.
Qed.

Lemma query_sorted (l : list StoredDoc) : created_desc (merge_sort newest_first l).
Proof.
  apply Sorted_StronglySorted; [apply _ |].
  apply (Sorted_weaken newest_first); [apply newest_first_created_ge |].
  apply Sorted_merge_sort, _.
Qed.

Lemma elem_of_snapshot_docs (c : gmap string Doc) (sd : StoredDoc) :
  sd ∈ snapshot_docs c ↔ c !! id sd = Some (fields sd).
Proof.
  unfold snapshot_docs. rewrite list_elem_of_fmap. split.
  - intros ([k v] & -> & Hin). by apply elem_of_map_to_list in Hin.
  - intros Hlook. exists (id sd, fields sd). split; [by destruct sd |].
    by apply elem_of_map_to_list.
Qed.

(** What one listing returns, on any world.  For an authenticated caller X
    it is exactly the records whose ownerId is X.  The remote backend
    returns them ordered by createdAt, latest first; the local backend
    returns them in the order of the metadata file. *)
Theorem list_by_owner (e : Env) (req : Request) (w : World) (user : Principal) :
  verifyToken e req = inr user →
  (db w = false →
     let docs := filter (λ d, userId (fields d) = uid user) (local_docs w) in
     serve GetDocuments e req w = (respond 200 (BDocuments docs), w)
     ∧ ∀ sd, sd ∈ docs ↔ sd ∈ local_docs w ∧ userId (fields sd) = uid user)
  ∧ (db w = true → firestore_read_fails e = false →
     ∃ docs,
       serve GetDocuments e req w = (respond 200 (BDocuments docs), w)
       ∧ (∀ sd, sd ∈ docs ↔
                collection w !! id sd = Some (fields sd) ∧ userId (fields sd) = uid user)
       ∧ docs ≡ₚ filter (λ d, userId (fields d) = uid user)
                        (snapshot_docs (collection w))
       ∧ created_desc docs).
Proof.
  intros Hauth. rewrite (serve_authenticated _ e req w user Hauth). simpl.
  unfold list_handler, try_catch, list_body, bind, get_db. split.
  - intros Hdb. rewrite Hdb. simpl. split; [done |].
    intros sd. rewrite list_elem_of_filter. tauto.
  - intros Hdb Hread. rewrite Hdb. unfold query_by_user. rewrite Hread. simpl.
    eexists. split; [reflexivity |]. split; [| split].
    + intros sd. rewrite merge_sort_Permutation, list_elem_of_filter,
        elem_of_snapshot_docs. tauto.
    + apply merge_sort_Permutation.
    + apply query_sorted.
Qed.

Lemma list_by_owner_witness :
  ∃ docs,
    get_documents sample_env (request (Some "Bearer token-alice") "" JUndefined None)
      remote_world
    = (respond 200 (BDocuments docs), remote_world)
    ∧ created_desc docs.
Proof.
  destruct (list_by_owner sample_env
              (request (Some "Bearer token-alice") "" JUndefined None)
              remote_world alice eq_refl) as [_ Hremote].
  destruct (Hremote eq_refl eq_refl) as (docs & Hrun & _ & _ & Hsorted).
  exists docs. split; assumption.
Defined.

Example remote_listing_sorted :
  get_documents sample_env (request (Some "Bearer token-alice") "" JUndefined None)
    remote_world
  = (respond 200 (BDocuments [ {| id := "docA2"; fields := doc_a2 |};
                               {| id := "docA1"; fields := doc_a1 |} ]),
     remote_world).
Proof. vm_compute. reflexivity. Qed.

(** ** Upload validation *)

Lemma fileFilter_checks f : fileFilter f = ext_ok f && mime_ok f.
Proof. reflexivity. Qed.

Lemma over_limit_iff f : (MAX_FILE_SIZE_BYTES <? in_size f) = negb (size_ok f).
Proof. unfold size_ok. apply Z.ltb_antisym. Qed.

(** What multer does with a request the ordered checks reject. *)
Lemma upload_single_rejected e req w rej :
  validate_in_order req = Some rej →
  match rej with
  | NoFileProvided => upload_single e req w = (inr None, w)
  | InvalidFileType => upload_single e req w = (inl INVALID_FILE_TYPE, w)
  | FileTooLarge => upload_single e req w = (inl LIMIT_FILE_SIZE, w)
  end.
Proof.
  unfold validate_in_order, upload_single.
  destruct (part_file req) as [f |]; [| by intros [= <-]].
  rewrite fileFilter_checks, over_limit_iff.
  destruct (ext_ok f), (mime_ok f), (size_ok f); simpl; by intros [= <-].
Qed.

(** What multer does with a request that passes every check. *)
Lemma upload_single_accepted e req w :
  validate_in_order req = None →
  ∃ f, part_file req = Some f ∧
    upload_single e req w =
      (inr (Some {| filename := storage_filename e f;
                    originalname := in_originalname f;
                    mimetype := in_mimetype f;
                    size := in_size f;
                    path := UPLOAD_DIR e +:+ "/" +:+ storage_filename e f |}),
       set_disk ({[ UPLOAD_DIR e +:+ "/" +:+ storage_filename e f ]} ∪ disk w) w).
Proof.
  unfold validate_in_order, upload_single.
  destruct (part_file req) as [f |]; [| done].
  rewrite fileFilter_checks, over_limit_iff.
  destruct (ext_ok f), (mime_ok f), (size_ok f); simpl; try done.
  intros _. by exists f.
Qed.

(** C4. An authenticated upload is answered by the first check that fails
    in the order presence, extension, declared content type, size: 400 "No
    file uploaded", 400 invalid type (for either the extension or the
    content type), 413 too large.  An upload that violates any rule is
    rejected and leaves the world as it was: no metadata record is created
    and no file is kept.  An upload that passes all four reaches the
    handler, which answers 201 or, on a store failure, 500. *)
Theorem upload_validation_in_order
  (e : Env) (req : Request) (w : World) (user : Principal) :
  verifyToken e req = inr user →
  (∀ rej, validate_in_order req = Some rej →
          post_upload e req w = (rejection_response rej, w))
  ∧ (part_file req = None ∨
     (∃ f, part_file req = Some f ∧
           (ext_ok f = false ∨ mime_ok f = false ∨ size_ok f = false)) →
     ∃ r, post_upload e req w = (r, w) ∧ success_of r = false
          ∧ (code r = 400 ∨ code r = 413))
  ∧ (validate_in_order req = None →
     code (post_upload e req w).1 = 201 ∨ code (post_upload e req w).1 = 500).
Proof.
  intros Hauth.
  assert (Hrej : ∀ rej, validate_in_order req = Some rej →
                        post_upload e req w = (rejection_response rej, w)).
  { intros rej Hval. unfold post_upload, protect. rewrite Hauth.
    unfold upload_handler.
    pose proof (upload_single_rejected e req w rej Hval) as Hmulter.
    destruct rej; by rewrite Hmulter. }
  split; [exact Hrej |]. split.
  - intros Hviol.
    assert (∃ rej, validate_in_order req = Some rej) as [rej Hval].
    { unfold validate_in_order.
      destruct Hviol as [-> | (f & -> & Hf)]; [by eexists |].
      destruct (ext_ok f), (mime_ok f), (size_ok f); simpl; eauto;
        destruct Hf as [? | [? | ?]]; discriminate. }
    exists (rejection_response rej). split; [by apply Hrej |].
    destruct rej; simpl; auto.
  - intros Hval. unfold post_upload, protect. rewrite Hauth. unfold upload_handler.
    destruct (upload_single_accepted e req w Hval) as (f & _ & ->).
    unfold try_catch, upload_body, bind, get_db, readLocalMetadata,
      writeLocalMetadata, collection_add, ret. simpl.
    destruct (db w); simpl.
    + destruct (firestore_write_fails e); simpl; [auto |].
      destruct (collection w !! auto_id e); simpl; auto.
    + destruct (writeFile_fails e); simpl; auto.
Qed.

Lemma upload_validation_in_order_witness :
  post_upload sample_env (request (Some "Bearer token-alice") "" JUndefined (Some exe_as_pdf))
    local_world
  = (respond 400 (BMessage false "Invalid file type. Only PDF, DOCX, and TXT allowed."),
     local_world).
Proof.
  destruct (upload_validation_in_order sample_env
              (request (Some "Bearer token-alice") "" JUndefined (Some exe_as_pdf))
              local_world alice eq_refl) as [Hfirst _].
  exact (Hfirst InvalidFileType eq_refl).
Defined.

(** ** Creating a record *)




(** The local create branch, run on a request that passes validation. *)
Lemma local_create_run e req w user :
  verifyToken e req = inr user →
  db w = false →
  validate_in_order req = None →
  writeFile_fails e = false →
  ∃ file disk',
    post_upload e req w
    = (respond 201 (BCreated "File uploaded & metadata saved locally"
                             (local_id e) (docData_of user file)),
       set_local_metadata
         (Holding ({| id := local_id e; fields := docData_of user file |}
                   :: local_docs w))
         (set_disk disk' w)).
Proof.
  intros Hauth Hdb Hval Hwrite.
  unfold post_upload, protect. rewrite Hauth. unfold upload_handler.
  destruct (upload_single_accepted e req w Hval) as (f' & _ & ->).
  unfold try_catch, upload_body, bind, get_db, readLocalMetadata,
    writeLocalMetadata, ret. simpl.
  rewrite Hdb, Hwrite. simpl. by do 2 eexists.
Qed.

(** The remote branch does stamp the record: Firestore stores the commit
    time in place of the placeholder. *)
Lemma remote_create_is_stamped e docData w rid w' :
  collection_add e docData w = (Ok rid, w') →
  ∃ d, collection w' !! rid = Some d ∧ uploadedAt d = Timestamp (server_time e).
Proof.
  unfold collection_add.
  destruct (firestore_write_fails e); [done |].
  destruct (collection w !! auto_id e); [done |].
  intros [= <- <-]. eexists. simpl. by rewrite lookup_insert_eq.
Qed.

(** Listing right after a local create: the new record comes first, then
    the caller's earlier records in their stored order. *)
Lemma local_listing_after_create e1 req1 e2 req2 w user :
  verifyToken e1 req1 = inr user →
  verifyToken e2 req2 = inr user →
  db w = false →
  validate_in_order req1 = None →
  writeFile_fails e1 = false →
  ∃ new,
    get_documents e2 req2 (post_upload e1 req1 w).2
    = (respond 200
         (BDocuments (new :: filter (λ d, userId (fields d) = uid user) (local_docs w))),
       (post_upload e1 req1 w).2)
    ∧ id new = local_id e1.
Proof.
  intros Hauth1 Hauth2 Hdb Hval Hwrite.
  destruct (local_create_run e1 req1 w user Hauth1 Hdb Hval Hwrite)
    as (file & disk' & ->).
  unfold get_documents, protect. rewrite Hauth2.
  unfold list_handler, try_catch, list_body, bind, get_db, readLocalMetadata, ret.
  simpl. rewrite Hdb. simpl. unfold local_docs at 1. simpl.
  rewrite filter_cons_True by reflexivity.
  eexists. split; reflexivity.
Qed.

(** C7, as the code has it.  In the local backend a valid upload whose
    metadata file can be written puts the new record in front of the stored
    list, under the id "local-<Date.now()>-<random>".  Its uploadedAt is the
    placeholder of [FieldValue.serverTimestamp()], which only Firestore
    resolves: the local record carries no time of creation. *)
Theorem local_create_prepends_unstamped_record
  (e : Env) (req : Request) (w : World) (user : Principal) :
  verifyToken e req = inr user →
  db w = false →
  validate_in_order req = None →
  writeFile_fails e = false →
  ∃ r w' new,
    post_upload e req w = (r, w')
    ∧ code r = 201
    ∧ local_metadata w' = Holding (new :: local_docs w)
    ∧ id new = "local-" +:+ num_to_string (clock_id e) +:+ "-"
                 +:+ num_to_string (rand_id e)
    ∧ uploadedAt (fields new) = ServerTimestampSentinel
    ∧ ∀ t, uploadedAt (fields new) ≠ Timestamp t.
Proof.
  intros Hauth Hdb Hval Hwrite.
  destruct (local_create_run e req w user Hauth Hdb Hval Hwrite)
    as (file & disk' & ->).
  do 3 eexists. split; [reflexivity |].
  repeat split; try reflexivity. intros t. discriminate.
Qed.

Lemma local_create_prepends_unstamped_record_witness :
  ∃ r w' new,
    post_upload sample_env
      (request (Some "Bearer token-alice") "" JUndefined (Some small_pdf)) local_world
    = (r, w')
    ∧ local_metadata w' = Holding (new :: local_docs local_world)
    ∧ id new = "local-1700000000005-42"
    ∧ uploadedAt (fields new) = ServerTimestampSentinel.
Proof.
  destruct (local_create_prepends_unstamped_record sample_env
              (request (Some "Bearer token-alice") "" JUndefined (Some small_pdf))
              local_world alice eq_refl eq_refl eq_refl eq_refl)
    as (r & w' & new & Hrun & _ & Hfile & Hid & Hat & _).
  exists r, w', new. repeat split; assumption.
Defined.

(** ** Deleting a record *)

(** When the unlink goes through, [remove_file] returns, touches nothing but
    the disk, and afterwards the path is gone and no other path is. *)
Lemma remove_file_returns e p w :
  unlink_ok e w p →
  ∃ w1, remove_file e p w = (Ok (), w1)
        ∧ db w1 = db w
        ∧ collection w1 = collection w
        ∧ local_metadata w1 = local_metadata w
        ∧ (p ≠ "" → p ∉ disk w1)
        ∧ (∀ q, q ≠ p → (q ∈ disk w1 ↔ q ∈ disk w)).
Proof.
  intros Hok. unfold remove_file, bind, existsSync, unlinkSync, ret.
  destruct (String.eqb_spec p "") as [-> | Hp].
  { exists w. repeat split; done. }
  case_bool_decide as Hin.
  - destruct Hok as [? | [? | ->]]; [done | done |].
    eexists. split; [reflexivity |]. simpl.
    split; [done |]. split; [done |]. split; [done |].
    split; [intros _ | intros q Hq]; rewrite elem_of_difference, elem_of_singleton;
      tauto.
  - exists w. repeat split; done.
Qed.

(** When the file is there and [unlinkSync] throws, so does [remove_file]. *)
Lemma remove_file_throws e p w :
  p ≠ "" → p ∈ disk w → unlink_fails e = true →
  remove_file e p w = (Throw, w).
Proof.
  intros Hp Hin Hfail. unfold remove_file, bind, existsSync, unlinkSync.
  destruct (String.eqb_spec p "") as [-> | _]; [done |].
  by rewrite bool_decide_eq_true_2, Hfail.
Qed.

Lemma find_by_id_filtered rid (docs : list StoredDoc) :
  find_by_id rid (filter (λ r, id r ≠ rid) docs) = None.
Proof.
  unfold find_by_id. apply list_find_None, Forall_forall.
  intros r Hr. apply list_elem_of_filter in Hr. tauto.
Qed.

(** C10. A delete in the local backend, by the owner and carried out (the
    file removal and the write of the metadata file go through), is answered
    200 and leaves in the stored list exactly the records whose id differs
    from the requested one, each as it was and in the same order. *)
Theorem local_delete_removes_only_requested
  (e : Env) (req : Request) (w : World) (user : Principal)
  (idx : nat) (d : StoredDoc) :
  verifyToken e req = inr user →
  db w = false →
  find_by_id (params_id req) (local_docs w) = Some (idx, d) →
  userId (fields d) = uid user →
  unlink_ok e w (filePath (fields d)) →
  writeFile_fails e = false →
  ∃ w',
    delete_document e req w
      = (respond 200 (BMessage true "Document deleted locally"), w')
    ∧ local_metadata w'
      = Holding (filter (λ r, id r ≠ params_id req) (local_docs w))
    ∧ (∀ r, r ∈ local_docs w' ↔ r ∈ local_docs w ∧ id r ≠ params_id req).
Proof.
  intros Hauth Hdb Hfind Howner Hunlink Hwrite.
  unfold delete_document, protect. rewrite Hauth.
  unfold delete_handler, try_catch, delete_body, bind at 1, get_db.
  rewrite Hdb. unfold bind at 1, readLocalMetadata. rewrite Hfind.
  rewrite (owner_test _ _ Howner).
  destruct (remove_file_returns e _ w Hunlink)
    as (w1 & Hrm & _ & _ & Hmeta & _).
  unfold bind at 1. rewrite Hrm.
  unfold bind, writeLocalMetadata, ret. rewrite Hwrite.
  eexists. split; [reflexivity |]. split; [reflexivity |].
  intros r. unfold local_docs at 1. simpl. rewrite list_elem_of_filter. tauto.
Qed.

Lemma local_delete_removes_only_requested_witness :
  ∃ w',
    delete_document sample_env
      (request (Some "Bearer token-alice") "local-2-2" JUndefined None) local_world
      = (respond 200 (BMessage true "Document deleted locally"), w')
    ∧ local_metadata w'
      = Holding [ {| id := "local-1-1"; fields := doc_a1 |};
                  {| id := "local-3-3"; fields := doc_b1 |} ].
Proof.
  destruct (local_delete_removes_only_requested sample_env
              (request (Some "Bearer token-alice") "local-2-2" JUndefined None)
              local_world alice 1%nat {| id := "local-2-2"; fields := doc_a2 |})
    as (w' & Hrun & Hfile & _).
  - reflexivity.
  - reflexivity.
  - reflexivity.
  - reflexivity.
  - right. right. reflexivity.
  - reflexivity.
  - exists w'. split; [exact Hrun | exact Hfile].
Defined.

(** C6, as the code has it.  A delete by the owner of an existing record
    first removes the file, then the metadata entry.  When the file removal
    and the store's delete go through, the answer is 200, the metadata entry
    is gone and so is the file; a file that is already absent (or an empty
    path) counts as removed, whether or not unlinking would fail.  When the
    file is there and unlinking it fails, the request is answered 500
    "Failed to delete document" and nothing is deleted: the failure is
    surfaced, and it does stop the metadata deletion. *)
Theorem delete_owned_record
  (e : Env) (req : Request) (w : World) (user : Principal) (d : Doc) :
  verifyToken e req = inr user →
  stored_record w (params_id req) = Some d →
  userId d = uid user →
  (db w = true → firestore_read_fails e = false) →
  (unlink_ok e w (filePath d) → store_deletes e w →
     ∃ message w',
       delete_document e req w = (respond 200 (BMessage true message), w')
       ∧ stored_record w' (params_id req) = None
       ∧ (filePath d ≠ "" → filePath d ∉ disk w'))
  ∧ (filePath d ∉ disk w → store_deletes e w →
     ∃ message w',
       delete_document e req w = (respond 200 (BMessage true message), w')
       ∧ stored_record w' (params_id req) = None)
  ∧ (filePath d ≠ "" → filePath d ∈ disk w → unlink_fails e = true →
     delete_document e req w
       = (respond 500 (BMessage false "Failed to delete document"), w)).
Proof.
  intros Hauth Hstored Howner Hread.
  assert (Hgo : unlink_ok e w (filePath d) → store_deletes e w →
     ∃ message w',
       delete_document e req w = (respond 200 (BMessage true message), w')
       ∧ stored_record w' (params_id req) = None
       ∧ (filePath d ≠ "" → filePath d ∉ disk w')).
  { intros Hunlink Hstore.
    unfold delete_document, protect. rewrite Hauth.
    unfold delete_handler, try_catch, delete_body, bind at 1, get_db.
    unfold store_deletes in Hstore. unfold stored_record.
    destruct (db w) eqn:Hdb.
    - apply (stored_record_remote w _ d Hdb) in Hstored.
      unfold bind at 1, docRef_get. rewrite (Hread eq_refl), Hstored.
      rewrite (owner_test _ _ Howner).
      destruct (remove_file_returns e _ w Hunlink)
        as (w1 & Hrm & Hdb1 & _ & _ & Hgone & _).
      unfold bind at 1. rewrite Hrm.
      unfold bind, docRef_delete, ret. rewrite Hstore.
      do 2 eexists. split; [reflexivity |]. simpl. rewrite Hdb1, Hdb.
      split; [apply lookup_delete_eq | exact Hgone].
    - destruct (stored_record_local w _ d Hdb Hstored) as (idx & hit & Hfind & <-).
      unfold bind at 1, readLocalMetadata. rewrite Hfind.
      rewrite (owner_test _ _ Howner).
      destruct (remove_file_returns e _ w Hunlink)
        as (w1 & Hrm & Hdb1 & _ & _ & Hgone & _).
      unfold bind at 1. rewrite Hrm.
      unfold bind, writeLocalMetadata, ret. rewrite Hstore.
      do 2 eexists. split; [reflexivity |]. simpl. rewrite Hdb1, Hdb.
      split; [| exact Hgone].
      unfold local_docs at 1. simpl. by rewrite find_by_id_filtered. }
  split; [exact Hgo |]. split.
  - intros Habsent Hstore.
    destruct (Hgo (or_intror (or_introl Habsent)) Hstore)
      as (message & w' & Hrun & Hnone & _).
    eauto.
  - intros Hp Hin Hfail.
    unfold delete_document, protect. rewrite Hauth.
    unfold delete_handler, try_catch, delete_body, bind at 1, get_db.
    destruct (db w) eqn:Hdb.
    + apply (stored_record_remote w _ d Hdb) in Hstored.
      unfold bind at 1, docRef_get. rewrite (Hread eq_refl), Hstored.
      rewrite (owner_test _ _ Howner).
      unfold bind at 1. by rewrite (remove_file_throws e _ w Hp Hin Hfail).
    + destruct (stored_record_local w _ d Hdb Hstored) as (idx & hit & Hfind & <-).
      unfold bind at 1, readLocalMetadata. rewrite Hfind.
      rewrite (owner_test _ _ Howner).
      unfold bind at 1. by rewrite (remove_file_throws e _ w Hp Hin Hfail).
Qed.

Lemma delete_owned_record_witness :
  ∃ message w',
    delete_document sample_env
      (request (Some "Bearer token-alice") "docA1" JUndefined None) remote_world
    = (respond 200 (BMessage true message), w')
    ∧ stored_record w' "docA1" = None
    ∧ "/srv/app/uploads/upload-1-1.pdf" ∉ disk w'.
Proof.
  destruct (delete_owned_record sample_env
              (request (Some "Bearer token-alice") "docA1" JUndefined None)
              remote_world alice doc_a1 eq_refl eq_refl eq_refl (λ _, eq_refl))
    as [Hgo _].
  destruct Hgo as (message & w' & Hrun & Hnone & Hgone).
  - right. right. reflexivity.
  - reflexivity.
  - exists message, w'. split; [exact Hrun |]. split; [exact Hnone |].
    apply Hgone. discriminate.
Defined.

(** Counterexample to C6 as stated: alice deletes her record docA1 while
    unlinking its file fails; the answer is 500 and the metadata entry is
    still there. *)
Lemma failed_unlink_blocks_metadata_delete :
  let e := with_faults false false false true sample_env in
  let req := request (Some "Bearer token-alice") "docA1" JUndefined None in
  verifyToken e req = inr alice
  ∧ stored_record remote_world "docA1" = Some doc_a1
  ∧ userId doc_a1 = uid alice
  ∧ delete_document e req remote_world
    = (respond 500 (BMessage false "Failed to delete document"), remote_world)
  ∧ stored_record (delete_document e req remote_world).2 "docA1" = Some doc_a1.
Proof. repeat split; vm_compute; reflexivity. Qed.

(** ** Store failures *)

Ltac run_handler :=
  unfold upload_handler, list_handler, get_handler, patch_handler, delete_handler,
    try_catch, upload_body, list_body, get_body, patch_body, delete_body,
    remove_file, bind, get_db, ret, readLocalMetadata, writeLocalMetadata,
    collection_add, docRef_get, docRef_update, docRef_delete, query_by_user,
    existsSync, unlinkSync, errorHandler.

(** C8, as the code has it.  With the remote backend, a Firestore call that
    rejects is caught by the handler's [catch] and answered 500 with the
    handler's fixed message; when writes are rejected no mutating request is
    answered with success and the collection stays as it was.  With the
    local backend, a failure to write the metadata file is caught inside
    [writeLocalMetadata] and never reaches the handler: a valid upload is
    answered 201 "File uploaded & metadata saved locally" although the
    metadata file is unchanged. *)
Theorem store_failure_responses
  (e : Env) (req : Request) (w : World) (user : Principal) :
  verifyToken e req = inr user →
  (∀ ep, db w = true → reading ep = true → firestore_read_fails e = true →
         (ep = PatchStatus → truthy (body_status req) = true) →
         serve ep e req w = (respond 500 (BMessage false (generic_message ep)), w))
  ∧ (∀ ep, db w = true → mutating ep = true → firestore_write_fails e = true →
           success_of (serve ep e req w).1 = false
           ∧ collection (serve ep e req w).2 = collection w)
  ∧ (db w = true → firestore_write_fails e = true → validate_in_order req = None →
     ∃ w1, post_upload e req w = (respond 500 (BMessage false "Upload failed"), w1)
           ∧ collection w1 = collection w)
  ∧ (db w = false → writeFile_fails e = true → validate_in_order req = None →
     ∃ data w',
       post_upload e req w
         = (respond 201 (BCreated "File uploaded & metadata saved locally"
                                  (local_id e) data), w')
       ∧ local_metadata w' = local_metadata w).
Proof.
  intros Hauth. split; [| split; [| split]].
  - intros ep Hdb Hreading Hfail Hstatus.
    rewrite (serve_authenticated ep e req w user Hauth).
    destruct ep; try discriminate Hreading; simpl; run_handler;
      rewrite ?Hstatus by done; simpl; by rewrite Hdb, Hfail.
  - intros ep Hdb Hmut Hfail.
    rewrite (serve_authenticated ep e req w user Hauth).
    destruct ep; try discriminate Hmut; simpl.
    + unfold upload_handler.
      destruct (validate_in_order req) as [rej |] eqn:Hval.
      * pose proof (upload_single_rejected e req w rej Hval) as Hmulter.
        destruct rej; rewrite Hmulter; done.
      * destruct (upload_single_accepted e req w Hval) as (f & _ & ->).
        run_handler. simpl. by rewrite Hdb, Hfail.
    + run_handler. destruct (truthy (body_status req)); simpl; [| done].
      rewrite Hdb. destruct (firestore_read_fails e); simpl; [done |].
      destruct (collection w !! params_id req) as [d |]; simpl; [| done].
      destruct (negb _); simpl; [done |]. by rewrite Hfail.
    + run_handler. rewrite Hdb. destruct (firestore_read_fails e); simpl; [done |].
      destruct (collection w !! params_id req) as [d |]; simpl; [| done].
      destruct (negb _); simpl; [done |].
      destruct (String.eqb (filePath d) ""); simpl; [by rewrite Hfail |].
      case_bool_decide; simpl; [| by rewrite Hfail].
      destruct (unlink_fails e); simpl; [done |]. by rewrite Hfail.
  - intros Hdb Hfail Hval. unfold post_upload, protect. rewrite Hauth.
    unfold upload_handler.
    destruct (upload_single_accepted e req w Hval) as (f & _ & ->).
    run_handler. simpl. rewrite Hdb, Hfail. eexists. split; reflexivity.
  - intros Hdb Hfail Hval. unfold post_upload, protect. rewrite Hauth.
    unfold upload_handler.
    destruct (upload_single_accepted e req w Hval) as (f & _ & ->).
    run_handler. simpl. rewrite Hdb, Hfail. do 2 eexists. split; reflexivity.
Qed.

Lemma store_failure_responses_witness :
  let e := with_faults false false true false sample_env in
  ∃ data w',
    post_upload e (request (Some "Bearer token-alice") "" JUndefined (Some small_pdf))
      local_world
    = (respond 201 (BCreated "File uploaded & metadata saved locally"
                             "local-1700000000005-42" data), w')
    ∧ local_metadata w' = local_metadata local_world.
Proof.
  intros e.
  destruct (store_failure_responses e
              (request (Some "Bearer token-alice") "" JUndefined (Some small_pdf))
              local_world alice eq_refl) as (_ & _ & _ & Hlocal).
  exact (Hlocal eq_refl eq_refl eq_refl).
Defined.


(** * Further properties of the handlers *)

(** ** What a request can and cannot change *)

Ltac case_inner :=
  match goal with
  | |- context [if ?b then _ else _] =>
      lazymatch b with
      | context [if _ then _ else _] => fail
      | context [match _ with _ => _ end] => fail
      | _ => destruct b eqn:?
      end
  | |- context [match ?x with _ => _ end] =>
      lazymatch x with
      | context [if _ then _ else _] => fail
      | context [match _ with _ => _ end] => fail
      | _ => destruct x eqn:?
      end
  end.

Ltac run_cases := run_handler; simpl; repeat (case_inner; simpl).


(** ** The effect of each mutating handler, case by case *)

(** POST /api/upload: nothing changes, or the part is stored and then the
    record is added to the selected backend or not. *)
Lemma upload_effect user e req w :
  (∃ rej, validate_in_order req = Some rej
          ∧ upload_handler user e req w = (rejection_response rej, w))
  ∨ (∃ f, part_file req = Some f ∧ validate_in_order req = None ∧
       ((db w = true
         ∧ (firestore_write_fails e = true ∨ is_Some (collection w !! auto_id e))
         ∧ upload_handler user e req w
           = (respond 500 (BMessage false "Upload failed"), after_multer e f w))
        ∨ (db w = true ∧ firestore_write_fails e = false
           ∧ collection w !! auto_id e = None
           ∧ upload_handler user e req w
             = (respond 201 (BCreated "File uploaded & metadata saved to Firestore"
                               (auto_id e) (docData_of user (accepted_file e f))),
                set_collection (<[auto_id e := remote_doc e user f]> (collection w))
                  (after_multer e f w)))
        ∨ (db w = false ∧ writeFile_fails e = true
           ∧ upload_handler user e req w
             = (respond 201 (BCreated "File uploaded & metadata saved locally"
                               (local_id e) (docData_of user (accepted_file e f))),
                after_multer e f w))
        ∨ (db w = false ∧ writeFile_fails e = false
           ∧ upload_handler user e req w
             = (respond 201 (BCreated "File uploaded & metadata saved locally"
                               (local_id e) (docData_of user (accepted_file e f))),
                set_local_metadata (Holding (local_entry e user f :: local_docs w))
                  (after_multer e f w))))).
Proof.
  unfold upload_handler.
  destruct (validate_in_order req) as [rej |] eqn:Hval.
  - left. exists rej. split; [done |].
    pose proof (upload_single_rejected e req w rej Hval) as Hmulter.
    destruct rej; by rewrite Hmulter.
  - right. destruct (upload_single_accepted e req w Hval) as (f & Hf & ->).
    exists f. split; [done |]. split; [done |].
    run_handler. simpl.
    destruct (db w) eqn:Hdb; simpl.
    + destruct (firestore_write_fails e) eqn:Hfail; simpl; [left; auto |].
      destruct (collection w !! auto_id e) eqn:Hfresh; simpl.
      * left. split; [done |]. split; [right; eauto | done].
      * right. left. done.
    + destruct (writeFile_fails e) eqn:Hfail; simpl.
      * right. right. left. done.
      * right. right. right. done.
Qed.

(** PATCH /api/documents/:id/status: nothing changes, or the caller's own
    record gets the new status. *)
Lemma patch_effect user e req w :
  let rid := params_id req in
  let s := body_status req in
  (patch_handler user e req w).2 = w
  ∨ (truthy s = true ∧ db w = true ∧ firestore_read_fails e = false
     ∧ firestore_write_fails e = false
     ∧ ∃ d, collection w !! rid = Some d ∧ userId d = uid user
            ∧ patch_handler user e req w
              = (respond 200 (BMessage true "Status updated"),
                 set_collection (<[rid := set_status s d]> (collection w)) w))
  ∨ (truthy s = true ∧ db w = false ∧ writeFile_fails e = false
     ∧ ∃ idx sd, find_by_id rid (local_docs w) = Some (idx, sd)
                 ∧ userId (fields sd) = uid user
                 ∧ patch_handler user e req w
                   = (respond 200 (BMessage true "Status updated locally"),
                      set_local_metadata
                        (Holding (<[idx := {| id := id sd;
                                              fields := set_status s (fields sd) |}]>
                                    (local_docs w))) w)).
Proof.
  intros rid s. subst rid s. run_handler.
  destruct (truthy (body_status req)) eqn:Hs; simpl; [| by left].
  destruct (db w) eqn:Hdb; simpl.
  - destruct (firestore_read_fails e) eqn:Hread; simpl; [by left |].
    destruct (collection w !! params_id req) as [d |] eqn:Hd; simpl; [| by left].
    destruct (String.eqb_spec (userId d) (uid user)) as [Hown | Hown]; simpl;
      [| by left].
    destruct (firestore_write_fails e) eqn:Hwrite; simpl; [by left |].
    right. left. repeat split; try done. exists d. by rewrite Hd.
  - destruct (find_by_id (params_id req) (local_docs w)) as [[idx sd] |] eqn:Hfind;
      simpl; [| by left].
    destruct (String.eqb_spec (userId (fields sd)) (uid user)) as [Hown | Hown];
      simpl; [| by left].
    destruct (writeFile_fails e) eqn:Hwrite; simpl; [by left |].
    right. right. repeat split; try done. by exists idx, sd.
Qed.

(** The three ways [remove_file] can end. *)
Lemma remove_file_cases e p w :
  remove_file e p w = (Throw, w)
  ∨ (remove_file e p w = (Ok (), w) ∧ unlink_ok e w p ∧ (p = "" ∨ p ∉ disk w))
  ∨ (remove_file e p w = (Ok (), set_disk (disk w ∖ {[ p ]}) w)
     ∧ unlink_fails e = false ∧ p ≠ "" ∧ p ∈ disk w).
Proof.
  unfold remove_file, bind, existsSync, unlinkSync, ret, unlink_ok.
  destruct (String.eqb_spec p "") as [-> | Hp]; [right; left; auto |].
  case_bool_decide as Hin; [| right; left; auto].
  destruct (unlink_fails e); [by left | right; right; auto].
Qed.

(** DELETE /api/documents/:id, with the steps of the body laid out. *)
Lemma delete_handler_steps user e req w :
  delete_handler user e req w =
  let rid := params_id req in
  let failed := respond 500 (BMessage false "Failed to delete document") in
  if db w
  then
    if firestore_read_fails e then (failed, w)
    else match collection w !! rid with
         | None => (not_found, w)
         | Some d =>
             if negb (String.eqb (userId d) (uid user)) then (access_denied, w)
             else match remove_file e (filePath d) w with
                  | (Throw, w1) => (failed, w1)
                  | (Ok _, w1) =>
                      if firestore_write_fails e then (failed, w1)
                      else (respond 200 (BMessage true "Document deleted"),
                            set_collection (delete rid (collection w1)) w1)
                  end
         end
  else
    match find_by_id rid (local_docs w) with
    | None => (not_found, w)
    | Some (_, sd) =>
        if negb (String.eqb (userId (fields sd)) (uid user)) then (access_denied, w)
        else match remove_file e (filePath (fields sd)) w with
             | (Throw, w1) => (failed, w1)
             | (Ok _, w1) =>
                 (respond 200 (BMessage true "Document deleted locally"),
                  if writeFile_fails e then w1
                  else set_local_metadata
                         (Holding (filter (λ r, id r ≠ rid) (local_docs w))) w1)
             end
    end.
Proof.
  unfold delete_handler, try_catch, delete_body, bind, get_db, docRef_get,
    readLocalMetadata, docRef_delete, writeLocalMetadata, ret.
  simpl. destruct (db w); simpl.
  - destruct (firestore_read_fails e); simpl; [done |].
    destruct (collection w !! params_id req) as [d |]; simpl; [| done].
    destruct (negb _); simpl; [done |].
    destruct (remove_file e (filePath d) w) as [[[] |] w1]; simpl; [| done].
    by destruct (firestore_write_fails e).
  - destruct (find_by_id (params_id req) (local_docs w)) as [[idx sd] |]; simpl;
      [| done].
    destruct (negb _); simpl; [done |].
    destruct (remove_file e (filePath (fields sd)) w) as [[[] |] w1]; simpl; [| done].
    by destruct (writeFile_fails e).
Qed.

(** DELETE /api/documents/:id: nothing changes, or the file of the caller's
    own record is unlinked (when it is there) and then the metadata entry is
    removed or not. *)
Lemma delete_effect user e req w :
  let rid := params_id req in
  (delete_handler user e req w).2 = w
  ∨ ∃ d w1,
      stored_record w rid = Some d ∧ userId d = uid user
      ∧ (db w = true → firestore_read_fails e = false)
      ∧ (w1 = w ∧ unlink_ok e w (filePath d) ∧
           (filePath d = "" ∨ filePath d ∉ disk w)
         ∨ w1 = set_disk (disk w ∖ {[ filePath d ]}) w ∧ unlink_fails e = false
           ∧ filePath d ≠ "" ∧ filePath d ∈ disk w)
      ∧ ((db w = true ∧ firestore_write_fails e = true
          ∧ delete_handler user e req w
            = (respond 500 (BMessage false "Failed to delete document"), w1))
         ∨ (db w = true ∧ firestore_write_fails e = false
            ∧ delete_handler user e req w
              = (respond 200 (BMessage true "Document deleted"),
                 set_collection (delete rid (collection w)) w1))
         ∨ (db w = false ∧ writeFile_fails e = true
            ∧ delete_handler user e req w
              = (respond 200 (BMessage true "Document deleted locally"), w1))
         ∨ (db w = false ∧ writeFile_fails e = false
            ∧ delete_handler user e req w
              = (respond 200 (BMessage true "Document deleted locally"),
                 set_local_metadata
                   (Holding (filter (λ r, id r ≠ rid) (local_docs w))) w1))).
Proof.
  intros rid. subst rid. rewrite !delete_handler_steps. simpl.
  unfold stored_record.
  destruct (db w) eqn:Hdb.
  - destruct (firestore_read_fails e) eqn:Hread; [by left |].
    destruct (collection w !! params_id req) as [d |] eqn:Hd; [| by left].
    destruct (String.eqb_spec (userId d) (uid user)) as [Hown | Hown]; simpl;
      [| by left].
    destruct (remove_file_cases e (filePath d) w)
      as [-> | [(-> & Hok & Habs) | (-> & Hu & Hp & Hin)]]; [by left | |].
    + right. exists d, w. split; [done |]. split; [done |]. split; [done |].
      split; [left; auto |].
      destruct (firestore_write_fails e); [left; auto | right; left; auto].
    + right. exists d, (set_disk (disk w ∖ {[ filePath d ]}) w).
      split; [done |]. split; [done |]. split; [done |].
      split; [right; auto |].
      destruct (firestore_write_fails e); [left; auto | right; left; auto].
  - destruct (find_by_id (params_id req) (local_docs w)) as [[idx sd] |] eqn:Hfind;
      [| by left].
    destruct (String.eqb_spec (userId (fields sd)) (uid user)) as [Hown | Hown];
      simpl; [| by left].
    destruct (remove_file_cases e (filePath (fields sd)) w)
      as [-> | [(-> & Hok & Habs) | (-> & Hu & Hp & Hin)]]; [by left | |].
    + right. exists (fields sd), w. split; [done |]. split; [done |].
      split; [done |]. split; [left; auto |].
      destruct (writeFile_fails e); [right; right; left; auto |].
      right. right. right. auto.
    + right. exists (fields sd), (set_disk (disk w ∖ {[ filePath (fields sd) ]}) w).
      split; [done |]. split; [done |]. split; [done |]. split; [right; auto |].
      destruct (writeFile_fails e); [right; right; left; auto |].
      right. right. right. auto.
Qed.

(** Handlers that only read return the world they were given. *)
Lemma read_handler_keeps_world ep user e req w :
  read_only ep = true → (after_auth ep user e req w).2 = w.
Proof.
  intros Hro. destruct ep; try discriminate Hro; simpl; unfold profile_handler;
    run_cases; done.
Qed.

(** Every change a handler makes is one of [Change]. *)
Lemma handler_changes ep user e req w :
  Change e req user w (after_auth ep user e req w).2.
Proof.
  destruct ep.
  - cbn [after_auth]. destruct (upload_effect user e req w)
      as [(rej & _ & ->) | (f & Hf & Hval & [(_ & _ & ->) | [(Hdb & _ & Hfresh & ->)
          | [(_ & _ & ->) | (Hdb & _ & ->)]]])]; simpl;
      eauto using Change.
  - rewrite (read_handler_keeps_world GetDocuments user e req w eq_refl).
    constructor.
  - rewrite (read_handler_keeps_world GetDocument user e req w eq_refl).
    constructor.
  - cbn [after_auth]. destruct (patch_effect user e req w)
      as [-> | [(_ & Hdb & _ & _ & d & Hd & Hown & ->)
          | (_ & Hdb & _ & idx & sd & Hfind & Hown & ->)]]; simpl;
      eauto using Change.
  - cbn [after_auth]. destruct (delete_effect user e req w)
      as [-> | (d & w1 & Hd & Hown & _ & Hw1 & Hrun)]; [constructor |].
    assert (Hw1' : w1 = w ∨ w1 = set_disk (disk w ∖ {[ filePath d ]}) w)
      by (destruct Hw1 as [(-> & _) | (-> & _)]; auto).
    pose proof (change_delete e req user w d w1 Hd Hown Hw1') as Hdel.
    destruct Hrun as [(Hdb & _ & ->) | [(Hdb & _ & ->) | [(Hdb & _ & ->)
      | (Hdb & _ & ->)]]]; simpl; rewrite Hdb in Hdel; try exact Hdel;
      destruct Hw1' as [-> | ->]; eauto using Change.
  - rewrite (read_handler_keeps_world GetProfile user e req w eq_refl).
    constructor.
Qed.

(** A request changes the world only when its caller is authenticated, and
    then only in the ways of [Change]. *)
Lemma request_changes ep e req w :
  (serve ep e req w).2 = w
  ∨ ∃ user, verifyToken e req = inr user
            ∧ Change e req user w (serve ep e req w).2.
Proof.
  unfold serve, protect.
  destruct (verifyToken e req) as [rej | user]; [by left |].
  right. exists user. split; [done |]. apply handler_changes.
Qed.

(** No request switches the backend. *)
Lemma db_unchanged ep e req w : db (serve ep e req w).2 = db w.
Proof.
  destruct (request_changes ep e req w) as [-> | (user & _ & Hch)]; [done |].
  destruct Hch as [| f | f | f | d | idx sd | d w1 ? ? [-> | ->] | d]; simpl;
    try done; destruct (db w) eqn:Hsel; simpl; by rewrite ?Hsel.
Qed.

(** X1. The handlers of GET /api/documents, GET /api/documents/:id and
    GET /api/user/profile leave the world as it was, whoever calls and
    whatever fails. *)
Theorem read_endpoints_change_nothing
  (ep : Endpoint) (e : Env) (req : Request) (w : World) :
  read_only ep = true →
  (serve ep e req w).2 = w.
Proof.
  intros Hro. unfold serve, protect.
  destruct (verifyToken e req) as [rej | user]; [done |].
  by apply read_handler_keeps_world.
Qed.

Lemma read_endpoints_change_nothing_witness :
  (get_documents (with_faults true false false false sample_env)
     (request (Some "Bearer token-alice") "" JUndefined None) remote_world).2
  = remote_world.
Proof.
  apply (read_endpoints_change_nothing GetDocuments
           (with_faults true false false false sample_env)
           (request (Some "Bearer token-alice") "" JUndefined None) remote_world).
  reflexivity.
Defined.

(** X2. The backend chosen at startup is never switched by a request, and a
    request never touches the store of the backend that is not selected:
    with [db] unset the Firestore collection stays as it is, with [db] set
    the local metadata file stays as it is. *)
Theorem backend_selection_is_fixed
  (ep : Endpoint) (e : Env) (req : Request) (w : World) :
  db (serve ep e req w).2 = db w
  ∧ (db w = false → collection (serve ep e req w).2 = collection w)
  ∧ (db w = true → local_metadata (serve ep e req w).2 = local_metadata w).
Proof.
  destruct (request_changes ep e req w) as [-> | (user & _ & Hch)]; [done |].
  destruct Hch as [| f | f ? ? Hdb ? | f ? ? Hdb | d Hdb | idx sd Hdb
                   | d w1 ? ? [-> | ->] | d]; simpl;
    try (rewrite Hdb); try done;
    destruct (db w) eqn:Hsel; simpl; rewrite ?Hsel; done.
Qed.

Lemma backend_selection_is_fixed_witness :
  local_metadata
    (post_upload sample_env
       (request (Some "Bearer token-alice") "" JUndefined (Some small_pdf))
       remote_world).2
  = Absent.
Proof.
  apply (backend_selection_is_fixed PostUpload sample_env
           (request (Some "Bearer token-alice") "" JUndefined (Some small_pdf))
           remote_world).
  reflexivity.
Defined.

Lemma find_by_id_hit rid docs idx (sd : StoredDoc) :
  find_by_id rid docs = Some (idx, sd) →
  docs !! idx = Some sd ∧ id sd = rid ∧ sd ∈ docs.
Proof.
  unfold find_by_id. intros (Hlook & Hid & _)%list_find_Some.
  split; [done |]. split; [done |]. by apply list_elem_of_lookup_2 in Hlook.
Qed.

Lemma unique_id_same_entry (docs : list StoredDoc) a b :
  NoDup (id <$> docs) → a ∈ docs → b ∈ docs → id a = id b → a = b.
Proof.
  induction docs as [| x docs IH]; simpl; [by intros _ Ha; inversion Ha |].
  intros [Hx Hnd]%NoDup_cons [-> | Ha]%elem_of_cons [-> | Hb]%elem_of_cons Hid.
  - done.
  - destruct Hx. rewrite Hid. by apply list_elem_of_fmap_2.
  - destruct Hx. rewrite <- Hid. by apply list_elem_of_fmap_2.
  - by apply IH.
Qed.

(** X3. No request changes or removes a record that belongs to someone
    other than its authenticated caller.  With Firestore this holds for
    every document; in the local array it holds when ids are unique (the
    delete branch filters by id alone). *)
Theorem foreign_records_untouched
  (ep : Endpoint) (e : Env) (req : Request) (w : World) (user : Principal) :
  verifyToken e req = inr user →
  (db w = true →
     ∀ rid d, collection w !! rid = Some d → userId d ≠ uid user →
              collection (serve ep e req w).2 !! rid = Some d)
  ∧ (db w = false → NoDup (id <$> local_docs w) →
     ∀ sd, sd ∈ local_docs w → userId (fields sd) ≠ uid user →
           sd ∈ local_docs (serve ep e req w).2).
Proof.
  intros Hauth.
  rewrite (serve_authenticated ep e req w user Hauth).
  pose proof (handler_changes ep user e req w) as Hch.
  destruct Hch as [| f | f ? ? Hdb Hfresh | f ? ? Hdb | d Hdb Hd Hown
                   | idx sd0 Hdb Hfind Hown | d w1 Hd Hown Hw1 | d]; simpl.
  - done.
  - done.
  - split; [| by rewrite Hdb].
    intros _ rid d Hd _. rewrite lookup_insert_ne; [done |]. congruence.
  - split; [by rewrite Hdb |]. intros _ _ sd Hsd _.
    unfold local_docs at 1. simpl. by apply elem_of_cons; right.
  - split; [| by rewrite Hdb].
    intros _ rid d' Hd' Hforeign. rewrite lookup_insert_ne; [done |].
    intros <-. congruence.
  - split; [by rewrite Hdb |]. intros _ _ sd Hsd Hforeign.
    unfold local_docs at 1. simpl.
    apply find_by_id_hit in Hfind as (Hidx & _ & _).
    apply list_elem_of_lookup in Hsd as [j Hj].
    apply list_elem_of_lookup. exists j.
    rewrite list_lookup_insert_ne; [done |]. intros ->. congruence.
  - unfold stored_record in Hd. destruct (db w) eqn:Hdb; simpl.
    + split; [| done]. intros _ rid d' Hd' Hforeign.
      rewrite lookup_delete_ne; [done |]. intros <-. congruence.
    + split; [done |]. intros _ Hnd sd Hsd Hforeign.
      unfold local_docs at 1. simpl. apply list_elem_of_filter. split; [| done].
      destruct (find_by_id (params_id req) (local_docs w)) as [[idx sd0] |] eqn:Hfind;
        [| done].
      simpl in Hd. injection Hd as <-.
      apply find_by_id_hit in Hfind as (_ & Hid & Hin).
      intros Hsame. destruct Hforeign.
      rewrite (unique_id_same_entry _ sd sd0 Hnd Hsd Hin); [done | congruence].
  - done.
Qed.

Lemma foreign_records_untouched_witness :
  collection
    (delete_document sample_env
       (request (Some "Bearer token-alice") "docA1" JUndefined None) remote_world).2
    !! "docB1"
  = Some doc_b1.
Proof.
  apply (foreign_records_untouched DeleteDocument sample_env
           (request (Some "Bearer token-alice") "docA1" JUndefined None)
           remote_world alice eq_refl);
    [reflexivity | reflexivity | discriminate].
Defined.

Lemma same_but_status_refl d : same_but_status d d.
Proof. by destruct d. Qed.

Lemma same_but_status_set s d : same_but_status d (set_status s d).
Proof. by destruct d. Qed.

(** X4. Whatever request is served, a record found in the store afterwards
    either was there before under the same id, with every field but the
    status unchanged (so its ownerId, file name, path, size and uploadedAt
    are the ones it was created with), or it is the record just created for
    the authenticated caller, owned by that caller with status "uploaded". *)
Theorem records_keep_owner_and_fields
  (ep : Endpoint) (e : Env) (req : Request) (w : World) (sd' : StoredDoc) :
  sd' ∈ records (serve ep e req w).2 →
  (∃ sd, sd ∈ records w ∧ id sd' = id sd
         ∧ same_but_status (fields sd) (fields sd'))
  ∨ (∃ user, verifyToken e req = inr user
             ∧ userId (fields sd') = uid user
             ∧ userEmail (fields sd') = email user
             ∧ status (fields sd') = JStr "uploaded").
Proof.
  assert (Hkeep : sd' ∈ records w →
    ∃ sd, sd ∈ records w ∧ id sd' = id sd
          ∧ same_but_status (fields sd) (fields sd')).
  { intros Hin. exists sd'. auto using same_but_status_refl. }
  destruct (request_changes ep e req w) as [-> | (user & Hauth & Hch)];
    [by left; apply Hkeep |].
  unfold records in *.
  destruct Hch as [| f | f ? ? Hdb Hfresh | f ? ? Hdb | d Hdb Hd Hown
                   | idx sd0 Hdb Hfind Hown | d w1 Hd Hown Hw1 | d]; simpl.
  - left. by apply Hkeep.
  - left. by apply Hkeep.
  - rewrite Hdb in *. rewrite !elem_of_snapshot_docs.
    intros [(Hid & Hf) | (Hid & Hlook)]%lookup_insert_Some.
    + right. exists user. by rewrite <- Hf.
    + left. apply Hkeep. by apply elem_of_snapshot_docs.
  - rewrite Hdb in *. unfold local_docs at 1. simpl.
    intros [-> | Hin]%elem_of_cons; [| by left; apply Hkeep].
    right. by exists user.
  - rewrite Hdb in *. rewrite elem_of_snapshot_docs.
    intros [(Hid & Hf) | (Hid & Hlook)]%lookup_insert_Some.
    + left. exists {| id := params_id req; fields := d |}.
      split; [by apply elem_of_snapshot_docs |]. split; [done |].
      simpl. rewrite <- Hf. apply same_but_status_set.
    + left. apply Hkeep. by apply elem_of_snapshot_docs.
  - rewrite Hdb in *. unfold local_docs at 1. simpl.
    apply find_by_id_hit in Hfind as (Hidx & _ & Hin0).
    intros [j Hj]%list_elem_of_lookup.
    apply list_lookup_insert_Some in Hj as [(-> & <- & _) | (_ & Hj)].
    + left. exists sd0. split; [done |]. split; [done |].
      apply same_but_status_set.
    + left. apply Hkeep. by apply list_elem_of_lookup_2 in Hj.
  - assert (Hsel : db w1 = db w) by (by destruct Hw1 as [-> | ->]).
    destruct (db w) eqn:Hdb; simpl; rewrite Hsel.
    + rewrite elem_of_snapshot_docs.
      intros [_ Hlook]%lookup_delete_Some.
      left. apply Hkeep. by apply elem_of_snapshot_docs.
    + unfold local_docs at 1. simpl.
      intros [_ Hin]%list_elem_of_filter. left. by apply Hkeep.
  - left. by apply Hkeep.
Qed.

Lemma records_keep_owner_and_fields_witness :
  let w' := (patch_status sample_env
               (request (Some "Bearer token-alice") "docA1" (JStr "reviewed") None)
               remote_world).2 in
  (∃ sd, sd ∈ records remote_world ∧ "docA1" = id sd
         ∧ same_but_status (fields sd) (set_status (JStr "reviewed") doc_a1))
  ∨ (∃ user, verifyToken sample_env
               (request (Some "Bearer token-alice") "docA1" (JStr "reviewed") None)
             = inr user
             ∧ userId (set_status (JStr "reviewed") doc_a1) = uid user
             ∧ userEmail (set_status (JStr "reviewed") doc_a1) = email user
             ∧ status (set_status (JStr "reviewed") doc_a1) = JStr "uploaded").
Proof.
  intros w'.
  apply (records_keep_owner_and_fields PatchStatus sample_env
           (request (Some "Bearer token-alice") "docA1" (JStr "reviewed") None)
           remote_world
           {| id := "docA1"; fields := set_status (JStr "reviewed") doc_a1 |}).
  apply elem_of_snapshot_docs. reflexivity.
Defined.

(** ** Files on disk *)


(** ** Reading, updating and deleting one record *)

(** GET /api/documents/:id, with the steps of the body laid out. *)
Lemma get_handler_steps user e req w :
  get_handler user e req w =
  let rid := params_id req in
  (if db w
   then
     if firestore_read_fails e
     then respond 500 (BMessage false "Failed to fetch document")
     else match collection w !! rid with
          | None => not_found
          | Some d =>
              if negb (String.eqb (userId d) (uid user)) then access_denied
              else respond 200 (BDocument rid d)
          end
   else
     match find_by_id rid (local_docs w) with
     | None => not_found
     | Some (_, sd) =>
         if negb (String.eqb (userId (fields sd)) (uid user)) then access_denied
         else respond 200 (BDocument (id sd) (fields sd))
     end, w).
Proof.
  unfold get_handler, try_catch, get_body, bind, get_db, docRef_get,
    readLocalMetadata, ret.
  simpl. destruct (db w); simpl.
  - destruct (firestore_read_fails e); simpl; [done |].
    destruct (collection w !! params_id req) as [d |]; simpl; [| done].
    by destruct (negb _).
  - destruct (find_by_id (params_id req) (local_docs w)) as [[idx sd] |]; simpl;
      [| done].
    by destruct (negb _).
Qed.

(** PATCH /api/documents/:id/status, with the steps of the body laid out. *)
Lemma patch_handler_steps user e req w :
  patch_handler user e req w =
  let rid := params_id req in
  let s := body_status req in
  let failed := respond 500 (BMessage false "Failed to update status") in
  if negb (truthy s) then (respond 400 (BMessage false "Missing status value"), w)
  else if db w
  then
    if firestore_read_fails e then (failed, w)
    else match collection w !! rid with
         | None => (not_found, w)
         | Some d =>
             if negb (String.eqb (userId d) (uid user)) then (access_denied, w)
             else if firestore_write_fails e then (failed, w)
             else (respond 200 (BMessage true "Status updated"),
                   set_collection (<[rid := set_status s d]> (collection w)) w)
         end
  else
    match find_by_id rid (local_docs w) with
    | None => (not_found, w)
    | Some (idx, sd) =>
        if negb (String.eqb (userId (fields sd)) (uid user)) then (access_denied, w)
        else (respond 200 (BMessage true "Status updated locally"),
              if writeFile_fails e then w
              else set_local_metadata
                     (Holding (<[idx := {| id := id sd;
                                           fields := set_status s (fields sd) |}]>
                                 (local_docs w))) w)
    end.
Proof.
  unfold patch_handler, try_catch, patch_body.
  destruct (negb (truthy (body_status req))); simpl; [done |].
  unfold bind, get_db, docRef_get, docRef_update, readLocalMetadata,
    writeLocalMetadata, ret.
  destruct (db w); simpl.
  - destruct (firestore_read_fails e); simpl; [done |].
    destruct (collection w !! params_id req) as [d |] eqn:Hd; simpl; [| done].
    destruct (negb _); simpl; [done |].
    destruct (firestore_write_fails e); simpl; [done |]. by rewrite Hd.
  - destruct (find_by_id (params_id req) (local_docs w)) as [[idx sd] |]; simpl;
      [| done].
    destruct (negb _); simpl; [done |].
    by destruct (writeFile_fails e).
Qed.

Lemma find_insert_hit rid docs idx (sd upd : StoredDoc) :
  find_by_id rid docs = Some (idx, sd) → id upd = rid →
  find_by_id rid (<[idx := upd]> docs) = Some (idx, upd).
Proof.
  unfold find_by_id. intros (Hlook & Hid & Hleast)%list_find_Some Hupd.
  apply list_find_insert_Some. right. left.
  split; [done |]. split; [done |]. split; [by eapply lookup_lt_Some |].
  split; [done |]. exact Hleast.
Qed.

Lemma find_insert_miss rid rid' docs idx (sd upd : StoredDoc) :
  docs !! idx = Some sd → id sd = rid → id upd = rid → rid' ≠ rid →
  find_by_id rid' (<[idx := upd]> docs) = find_by_id rid' docs.
Proof.
  unfold find_by_id. intros Hlook Hsd Hupd Hne.
  revert idx Hlook. induction docs as [| a docs IH]; intros [| idx] Hlook;
    simpl in *; try done.
  - injection Hlook as ->.
    rewrite !decide_False by congruence. done.
  - destruct (decide (id a = rid')); [done |]. by rewrite IH.
Qed.

Lemma local_docs_written l w :
  local_docs (set_local_metadata (Holding l) w) = l.
Proof. reflexivity. Qed.

(** X6. PATCH by the owner, with a non-empty status and a store that takes
    the update, is answered 200; afterwards the record reads back with the
    new status and every other field as before, every other id reads as
    before, and the number of records and the files on disk are unchanged. *)
Theorem owner_updates_status
  (e : Env) (req : Request) (w : World) (user : Principal) (d : Doc) :
  verifyToken e req = inr user →
  stored_record w (params_id req) = Some d →
  userId d = uid user →
  truthy (body_status req) = true →
  (db w = true → firestore_read_fails e = false) →
  store_updates e w →
  ∃ message w',
    patch_status e req w = (respond 200 (BMessage true message), w')
    ∧ stored_record w' (params_id req) = Some (set_status (body_status req) d)
    ∧ (∀ rid, rid ≠ params_id req → stored_record w' rid = stored_record w rid)
    ∧ record_count w' = record_count w
    ∧ disk w' = disk w.
Proof.
  intros Hauth Hd Hown Hs Hread Hstore.
  unfold patch_status, protect. rewrite Hauth, patch_handler_steps. simpl.
  rewrite Hs. simpl. unfold store_updates in Hstore.
  unfold stored_record, record_count in *.
  destruct (db w) eqn:Hdb.
  - rewrite (Hread eq_refl), Hd, (owner_test _ _ Hown), Hstore.
    do 2 eexists. split; [reflexivity |]. simpl. rewrite Hdb.
    split; [apply lookup_insert_eq |]. split; [| split; [| done]].
    + intros rid Hrid. by rewrite lookup_insert_ne.
    + apply map_size_insert_Some. eauto.
  - destruct (find_by_id (params_id req) (local_docs w)) as [[idx sd] |] eqn:Hfind;
      [| done].
    simpl in Hd. injection Hd as <-.
    rewrite (owner_test _ _ Hown), Hstore.
    do 2 eexists. split; [reflexivity |].
    rewrite !local_docs_written. simpl. rewrite Hdb.
    pose proof (find_by_id_hit _ _ _ _ Hfind) as (Hidx & Hid & _).
    split; [| split; [| split; [| done]]].
    + by rewrite (find_insert_hit _ _ _ sd
                    {| id := id sd;
                       fields := set_status (body_status req) (fields sd) |}
                    Hfind Hid).
    + intros rid Hrid.
      by rewrite (find_insert_miss (params_id req) rid _ idx sd
                    {| id := id sd;
                       fields := set_status (body_status req) (fields sd) |}
                    Hidx Hid Hid Hrid).
    + apply length_insert.
Qed.

Lemma owner_updates_status_witness :
  ∃ message w',
    patch_status sample_env
      (request (Some "Bearer token-alice") "local-2-2" (JStr "reviewed") None)
      local_world
    = (respond 200 (BMessage true message), w')
    ∧ stored_record w' "local-2-2" = Some (set_status (JStr "reviewed") doc_a2)
    ∧ stored_record w' "local-1-1" = Some doc_a1.
Proof.
  destruct (owner_updates_status sample_env
              (request (Some "Bearer token-alice") "local-2-2" (JStr "reviewed") None)
              local_world alice doc_a2)
    as (message & w' & Hrun & Hnew & Hother & _ & _).
  - reflexivity.
  - reflexivity.
  - reflexivity.
  - reflexivity.
  - discriminate.
  - reflexivity.
  - exists message, w'. split; [exact Hrun |]. split; [exact Hnew |].
    rewrite (Hother "local-1-1"); [reflexivity | discriminate].
Defined.

Lemma set_status_twice s d : set_status s (set_status s d) = set_status s d.
Proof. reflexivity. Qed.

(** X7. Sending the same status update twice is the same as sending it
    once: the second request gets the answer of the first and leaves the
    world the first one produced.  This holds for every caller, record and
    failure, with no side condition. *)
Theorem update_status_idempotent (e : Env) (req : Request) (w : World) :
  patch_status e req (patch_status e req w).2 = patch_status e req w.
Proof.
  unfold patch_status, protect.
  destruct (verifyToken e req) as [rej | user]; [done |].
  rewrite (patch_handler_steps user e req w).
  cbv zeta.
  destruct (negb (truthy (body_status req))) eqn:Hs; [simpl; by rewrite
    patch_handler_steps; cbv zeta; rewrite Hs |].
  destruct (db w) eqn:Hdb.
  - destruct (firestore_read_fails e) eqn:Hread;
      [simpl; rewrite patch_handler_steps; cbv zeta; by rewrite Hs, Hdb, Hread |].
    destruct (collection w !! params_id req) as [d |] eqn:Hd;
      [| simpl; rewrite patch_handler_steps; cbv zeta; by rewrite Hs, Hdb, Hread, Hd].
    destruct (negb (String.eqb (userId d) (uid user))) eqn:Hown;
      [simpl; rewrite patch_handler_steps; cbv zeta;
       by rewrite Hs, Hdb, Hread, Hd, Hown |].
    destruct (firestore_write_fails e) eqn:Hwrite;
      [simpl; rewrite patch_handler_steps; cbv zeta;
       by rewrite Hs, Hdb, Hread, Hd, Hown, Hwrite |].
    cbn [snd]. rewrite patch_handler_steps. cbv zeta.
    cbn [db collection set_collection].
    rewrite Hs, Hdb, Hread, lookup_insert_eq. cbn [userId set_status].
    rewrite Hown, Hwrite. f_equal.
    rewrite insert_insert_eq. reflexivity.
  - destruct (find_by_id (params_id req) (local_docs w)) as [[idx sd] |] eqn:Hfind;
      [| simpl; rewrite patch_handler_steps; cbv zeta; by rewrite Hs, Hdb, Hfind].
    destruct (negb (String.eqb (userId (fields sd)) (uid user))) eqn:Hown;
      [simpl; rewrite patch_handler_steps; cbv zeta;
       by rewrite Hs, Hdb, Hfind, Hown |].
    destruct (writeFile_fails e) eqn:Hwrite;
      [simpl; rewrite patch_handler_steps; cbv zeta;
       by rewrite Hs, Hdb, Hfind, Hown, Hwrite |].
    cbn [snd]. rewrite patch_handler_steps. cbv zeta.
    rewrite local_docs_written. cbn [db set_local_metadata].
    pose proof (find_by_id_hit _ _ _ _ Hfind) as (_ & Hid & _).
    rewrite Hs, Hdb.
    rewrite (find_insert_hit _ _ _ sd
               {| id := id sd; fields := set_status (body_status req) (fields sd) |}
               Hfind Hid).
    cbn [fields id userId set_status]. rewrite Hown, Hwrite.
    rewrite list_insert_insert_eq. reflexivity.
Qed.

(** ** Looking up an id that is not there *)

Lemma missing_record_handlers ep user e req w :
  on_record ep = true →
  stored_record w (params_id req) = None →
  (db w = true → firestore_read_fails e = false) →
  (ep = PatchStatus → truthy (body_status req) = true) →
  after_auth ep user e req w = (not_found, w).
Proof.
  intros Hrec Hnone Hread Hs. unfold stored_record in Hnone.
  destruct ep; try discriminate Hrec; cbn [after_auth].
  - rewrite get_handler_steps. cbv zeta.
    destruct (db w); [by rewrite (Hread eq_refl), Hnone |].
    by destruct (find_by_id _ _) as [[] |].
  - rewrite patch_handler_steps. cbv zeta. rewrite (Hs eq_refl). simpl.
    destruct (db w); [by rewrite (Hread eq_refl), Hnone |].
    by destruct (find_by_id _ _) as [[] |].
  - rewrite delete_handler_steps. cbv zeta.
    destruct (db w); [by rewrite (Hread eq_refl), Hnone |].
    by destruct (find_by_id _ _) as [[] |].
Qed.

(** X8. For an authenticated getById or delete, or updateStatus with a
    non-empty status, on an id under which the selected backend holds no
    record (and with no store failure while looking), the answer is 404
    "Document not found" and the world is unchanged. *)
Theorem missing_record_is_not_found
  (ep : Endpoint) (e : Env) (req : Request) (w : World) (user : Principal) :
  on_record ep = true →
  verifyToken e req = inr user →
  stored_record w (params_id req) = None →
  (db w = true → firestore_read_fails e = false) →
  (ep = PatchStatus → truthy (body_status req) = true) →
  serve ep e req w = (not_found, w).
Proof.
  intros Hrec Hauth Hnone Hread Hs.
  unfold serve, protect. rewrite Hauth. unfold stored_record in Hnone.
  destruct ep; try discriminate Hrec; cbn [after_auth].
  - rewrite get_handler_steps. cbv zeta.
    destruct (db w); [by rewrite (Hread eq_refl), Hnone |].
    by destruct (find_by_id _ _) as [[] |].
  - rewrite patch_handler_steps. cbv zeta. rewrite (Hs eq_refl). simpl.
    destruct (db w); [by rewrite (Hread eq_refl), Hnone |].
    by destruct (find_by_id _ _) as [[] |].
  - rewrite delete_handler_steps. cbv zeta.
    destruct (db w); [by rewrite (Hread eq_refl), Hnone |].
    by destruct (find_by_id _ _) as [[] |].
Qed.

Lemma missing_record_is_not_found_witness :
  patch_status sample_env
    (request (Some "Bearer token-bob") "no-such-id" (JStr "reviewed") None) local_world
  = (not_found, local_world).
Proof.
  apply (missing_record_is_not_found PatchStatus sample_env
           (request (Some "Bearer token-bob") "no-such-id" (JStr "reviewed") None)
           local_world bob); reflexivity || (intros; reflexivity).
Defined.

(** X9. Once a delete has been answered 200 and the store carried it out,
    any authenticated getById, updateStatus (with a status) or delete of the
    same id, by anyone, is answered 404 and changes nothing. *)
Theorem deleted_record_is_gone
  (e : Env) (req : Request) (w : World)
  (ep : Endpoint) (e2 : Env) (req2 : Request) (caller : Principal) :
  code (delete_document e req w).1 = 200 →
  store_deletes e w →
  on_record ep = true →
  verifyToken e2 req2 = inr caller →
  params_id req2 = params_id req →
  (db w = true → firestore_read_fails e2 = false) →
  (ep = PatchStatus → truthy (body_status req2) = true) →
  serve ep e2 req2 (delete_document e req w).2
  = (not_found, (delete_document e req w).2).
Proof.
  intros Hcode Hstore Hrec Hauth2 Hsame Hread2 Hs.
  rewrite (serve_authenticated ep e2 req2 _ caller Hauth2).
  apply missing_record_handlers; try done.
  - rewrite Hsame. clear Hauth2 Hsame Hread2 Hs.
    unfold delete_document, protect in *.
    destruct (verifyToken e req) as [rej | user] eqn:Hauth.
    { unfold verifyToken in Hauth. repeat case_match; simplify_eq; done. }
    rewrite delete_handler_steps in *. cbv zeta in *.
    unfold store_deletes in Hstore. unfold stored_record.
    destruct (db w) eqn:Hdb.
    + destruct (firestore_read_fails e); [done |].
      destruct (collection w !! params_id req) as [d |]; [| done].
      destruct (negb _); [done |].
      destruct (remove_file_cases e (filePath d) w)
        as [Hrm | [(Hrm & _) | (Hrm & _)]]; rewrite Hrm in *; [done | |];
        rewrite Hstore in *; simpl; rewrite Hdb; apply lookup_delete_eq.
    + destruct (find_by_id (params_id req) (local_docs w)) as [[idx sd] |]; [| done].
      destruct (negb _); [done |].
      destruct (remove_file_cases e (filePath (fields sd)) w)
        as [Hrm | [(Hrm & _) | (Hrm & _)]]; rewrite Hrm in *; [done | |];
        rewrite Hstore in *; simpl; rewrite Hdb; rewrite local_docs_written;
        by rewrite find_by_id_filtered.
  - intros Hdb'. apply Hread2.
    by rewrite <- (db_unchanged DeleteDocument e req w).
Qed.

Lemma deleted_record_is_gone_witness :
  let w' := (delete_document sample_env
               (request (Some "Bearer token-alice") "docA1" JUndefined None)
               remote_world).2 in
  get_document sample_env (request (Some "Bearer token-bob") "docA1" JUndefined None) w'
  = (not_found, w').
Proof.
  intros w'.
  apply (deleted_record_is_gone sample_env
           (request (Some "Bearer token-alice") "docA1" JUndefined None) remote_world
           GetDocument sample_env
           (request (Some "Bearer token-bob") "docA1" JUndefined None) bob);
    reflexivity || discriminate.
Defined.

(** ** Uploading, then reading back *)

(** The world and answer of a valid upload the store takes. *)
Lemma accepted_upload_run e req w user :
  verifyToken e req = inr user →
  validate_in_order req = None →
  store_accepts e w →
  ∃ f, part_file req = Some f ∧
    post_upload e req w =
    if db w
    then (respond 201 (BCreated "File uploaded & metadata saved to Firestore"
                         (auto_id e) (docData_of user (accepted_file e f))),
          set_collection (<[auto_id e := remote_doc e user f]> (collection w))
            (after_multer e f w))
    else (respond 201 (BCreated "File uploaded & metadata saved locally"
                         (local_id e) (docData_of user (accepted_file e f))),
          set_local_metadata (Holding (local_entry e user f :: local_docs w))
            (after_multer e f w)).
Proof.
  intros Hauth Hval Hstore. unfold post_upload, protect. rewrite Hauth.
  unfold store_accepts in Hstore.
  destruct (upload_effect user e req w)
    as [(rej & Hrej & _) | (f & Hf & _ & Hcases)]; [congruence |].
  exists f. split; [done |].
  destruct Hcases as [(Hdb & Hbad & _) | [(Hdb & _ & _ & ->)
    | [(Hdb & Hbad & _) | (Hdb & _ & ->)]]]; rewrite Hdb in *; try done.
  - destruct Hstore as [Hw Hfresh]. destruct Hbad as [? | [? ?]]; congruence.
  - congruence.
Qed.

(** X10. After a valid upload that the store took, a getById for the id the
    upload returned gives the uploader 200 with the stored record, and gives
    any other principal 403.  The stored record is the uploaded metadata;
    with Firestore its uploadedAt is the commit time. *)
Theorem uploaded_record_can_be_fetched
  (e : Env) (req : Request) (w : World) (user : Principal)
  (e2 : Env) (req2 : Request) (caller : Principal) :
  verifyToken e req = inr user →
  validate_in_order req = None →
  store_accepts e w →
  verifyToken e2 req2 = inr caller →
  (db w = true → firestore_read_fails e2 = false) →
  ∃ message new_id data stored,
    (post_upload e req w).1 = respond 201 (BCreated message new_id data)
    ∧ stored = (if db w then set_uploadedAt (Timestamp (server_time e)) data
                else data)
    ∧ userId stored = uid user
    ∧ (params_id req2 = new_id →
       get_document e2 req2 (post_upload e req w).2
       = (if decide (uid caller = uid user)
          then respond 200 (BDocument new_id stored)
          else access_denied,
          (post_upload e req w).2)).
Proof.
  intros Hauth Hval Hstore Hauth2 Hread2.
  destruct (accepted_upload_run e req w user Hauth Hval Hstore) as (f & Hf & ->).
  destruct (db w) eqn:Hdb; cbn [fst snd].
  - do 4 eexists. split; [reflexivity |]. split; [reflexivity |].
    split; [reflexivity |]. intros Hid.
    unfold get_document, protect. rewrite Hauth2, get_handler_steps. cbv zeta.
    cbn [db collection set_collection after_multer set_disk].
    rewrite Hdb, (Hread2 eq_refl), Hid, lookup_insert_eq.
    cbn [userId set_uploadedAt docData_of remote_doc].
    destruct (decide (uid caller = uid user)) as [Hsame | Hother].
    + by rewrite (owner_test _ _ (eq_sym Hsame)).
    + rewrite not_owner_test; [done | congruence].
  - do 4 eexists. split; [reflexivity |]. split; [reflexivity |].
    split; [reflexivity |]. intros Hid.
    unfold get_document, protect. rewrite Hauth2, get_handler_steps. cbv zeta.
    rewrite local_docs_written. cbn [db set_local_metadata after_multer set_disk].
    rewrite Hdb, Hid. unfold find_by_id. cbn [list_find].
    rewrite decide_True by reflexivity.
    cbn [fields id userId local_entry docData_of].
    destruct (decide (uid caller = uid user)) as [Hsame | Hother].
    + by rewrite (owner_test _ _ (eq_sym Hsame)).
    + rewrite not_owner_test; [done | congruence].
Qed.

Lemma uploaded_record_can_be_fetched_witness :
  let upload := post_upload sample_env
                  (request (Some "Bearer token-alice") "" JUndefined (Some small_pdf))
                  remote_world in
  let fetch := request (Some "Bearer token-bob") "Zq3xAutoId" JUndefined None in
  ∃ message new_id data stored,
    upload.1 = respond 201 (BCreated message new_id data)
    ∧ stored = set_uploadedAt (Timestamp 1700000000100) data
    ∧ userId stored = "alice"
    ∧ (params_id fetch = new_id →
       get_document sample_env fetch upload.2 = (access_denied, upload.2)).
Proof.
  exact (uploaded_record_can_be_fetched sample_env
           (request (Some "Bearer token-alice") "" JUndefined (Some small_pdf))
           remote_world alice sample_env
           (request (Some "Bearer token-bob") "Zq3xAutoId" JUndefined None) bob
           eq_refl eq_refl (conj eq_refl eq_refl) eq_refl (λ _, eq_refl)).
Defined.

(** The documents a listing returns. *)
Lemma listing_membership user e req w docs w' :
  list_handler user e req w = (respond 200 (BDocuments docs), w') →
  ∀ sd, sd ∈ docs ↔ sd ∈ records w ∧ userId (fields sd) = uid user.
Proof.
  unfold list_handler, try_catch, list_body, bind, get_db, query_by_user,
    readLocalMetadata, ret, records.
  destruct (db w); simpl.
  - destruct (firestore_read_fails e); simpl; [done |].
    intros [= <- _] sd.
    rewrite merge_sort_Permutation, list_elem_of_filter. tauto.
  - intros [= <- _] sd. rewrite list_elem_of_filter. tauto.
Qed.

(** X11. After a valid upload that the store took, the new record is part of
    every listing its uploader gets and of no listing a principal with
    another id gets. *)
Theorem uploaded_record_is_listed_for_owner_only
  (e : Env) (req : Request) (w : World) (user : Principal) :
  verifyToken e req = inr user →
  validate_in_order req = None →
  store_accepts e w →
  ∃ message new_id data entry,
    (post_upload e req w).1 = respond 201 (BCreated message new_id data)
    ∧ id entry = new_id
    ∧ userId (fields entry) = uid user
    ∧ ∀ e2 req2 caller docs w2,
        verifyToken e2 req2 = inr caller →
        get_documents e2 req2 (post_upload e req w).2
          = (respond 200 (BDocuments docs), w2) →
        (uid caller = uid user → entry ∈ docs)
        ∧ (uid caller ≠ uid user → entry ∉ docs).
Proof.
  intros Hauth Hval Hstore.
  destruct (accepted_upload_run e req w user Hauth Hval Hstore) as (f & Hf & ->).
  exists (if db w then "File uploaded & metadata saved to Firestore"
          else "File uploaded & metadata saved locally"),
         (if db w then auto_id e else local_id e),
         (docData_of user (accepted_file e f)),
         (if db w then {| id := auto_id e; fields := remote_doc e user f |}
          else local_entry e user f).
  split; [by destruct (db w) |]. split; [by destruct (db w) |].
  split; [by destruct (db w) |].
  intros e2 req2 caller docs w2 Hauth2 Hlist.
  unfold get_documents, protect in Hlist. rewrite Hauth2 in Hlist.
  pose proof (listing_membership caller e2 req2 _ docs w2 Hlist) as Hmem.
  split.
  - intros Hsame. apply Hmem. unfold records.
    destruct (db w) eqn:Hdb; cbn [snd db set_collection set_local_metadata
      after_multer set_disk collection]; rewrite Hdb.
    + split; [| by rewrite Hsame].
      apply elem_of_snapshot_docs. apply lookup_insert_eq.
    + rewrite local_docs_written. split; [| by rewrite Hsame].
      apply elem_of_cons. by left.
  - intros Hother [_ Hown]%Hmem. destruct Hother.
    by destruct (db w).
Qed.

Lemma uploaded_record_is_listed_for_owner_only_witness :
  ∃ message new_id data entry,
    (post_upload sample_env
       (request (Some "Bearer token-alice") "" JUndefined (Some small_pdf))
       local_world).1
    = respond 201 (BCreated message new_id data)
    ∧ id entry = new_id
    ∧ userId (fields entry) = "alice".
Proof.
  destruct (uploaded_record_is_listed_for_owner_only sample_env
              (request (Some "Bearer token-alice") "" JUndefined (Some small_pdf))
              local_world alice eq_refl eq_refl eq_refl)
    as (message & new_id & data & entry & Hrun & Hid & Hown & _).
  by exists message, new_id, data, entry.
Defined.

(** X12. When a valid upload does not reach the store (Firestore rejects
    the add and the answer is 500; or the local metadata file cannot be
    written and the answer is still 201), the file multer stored stays on
    disk and the metadata records are the ones from before: the file is
    left without a record. *)
Theorem unrecorded_upload_leaves_file
  (e : Env) (req : Request) (w : World) (user : Principal) :
  verifyToken e req = inr user →
  validate_in_order req = None →
  store_refuses e w →
  ∃ f, part_file req = Some f
       ∧ (post_upload e req w).2 = after_multer e f w
       ∧ stored_path e f ∈ disk (post_upload e req w).2
       ∧ records (post_upload e req w).2 = records w
       ∧ code (post_upload e req w).1 = (if db w then 500 else 201).
Proof.
  intros Hauth Hval Hrefuse. unfold post_upload, protect. rewrite Hauth.
  unfold store_refuses in Hrefuse.
  destruct (upload_effect user e req w)
    as [(rej & Hrej & _) | (f & Hf & _ & Hcases)]; [congruence |].
  exists f. split; [done |].
  assert (Hfile : stored_path e f ∈ disk (after_multer e f w)).
  { simpl. apply elem_of_union. left. by apply elem_of_singleton. }
  destruct Hcases as [(Hdb & _ & ->) | [(Hdb & Hok & Hfresh & _)
    | [(Hdb & _ & ->) | (Hdb & Hok & _)]]]; rewrite Hdb in *; try done.
  - destruct Hrefuse as [? | [? ?]]; congruence.
  - congruence.
Qed.

Lemma unrecorded_upload_leaves_file_witness :
  ∃ f,
    part_file (request (Some "Bearer token-alice") "" JUndefined (Some small_pdf))
      = Some f
    ∧ stored_path sample_env f
      ∈ disk (post_upload (with_faults false true false false sample_env)
                (request (Some "Bearer token-alice") "" JUndefined (Some small_pdf))
                remote_world).2
    ∧ code (post_upload (with_faults false true false false sample_env)
              (request (Some "Bearer token-alice") "" JUndefined (Some small_pdf))
              remote_world).1 = 500.
Proof.
  destruct (unrecorded_upload_leaves_file
              (with_faults false true false false sample_env)
              (request (Some "Bearer token-alice") "" JUndefined (Some small_pdf))
              remote_world alice eq_refl eq_refl (or_introl eq_refl))
    as (f & Hf & _ & Hdisk & _ & Hcode).
  exists f. split; [exact Hf |]. split; [exact Hdisk | exact Hcode].
Defined.

(** ** The local metadata file *)

(** X13. A local metadata file that is missing or cannot be read or parsed
    counts as empty: the listing is empty and every id is unknown (404).
    The next valid upload whose write goes through replaces the file by an
    array holding just the new record, so whatever an unreadable file held
    is lost. *)
Theorem unreadable_metadata_counts_as_empty
  (e : Env) (req : Request) (w : World) (user : Principal) :
  verifyToken e req = inr user →
  db w = false →
  local_metadata w = Absent ∨ local_metadata w = Unreadable →
  get_documents e req w = (respond 200 (BDocuments []), w)
  ∧ get_document e req w = (not_found, w)
  ∧ delete_document e req w = (not_found, w)
  ∧ (truthy (body_status req) = true → patch_status e req w = (not_found, w))
  ∧ (validate_in_order req = None → writeFile_fails e = false →
     ∃ f, part_file req = Some f
          ∧ local_metadata (post_upload e req w).2 = Holding [local_entry e user f]).
Proof.
  intros Hauth Hdb Hfile.
  assert (Hempty : local_docs w = []).
  { unfold local_docs. by destruct Hfile as [-> | ->]. }
  assert (Hnone : stored_record w (params_id req) = None).
  { unfold stored_record. by rewrite Hdb, Hempty. }
  assert (Hread : db w = true → firestore_read_fails e = false) by congruence.
  unfold get_documents, get_document, patch_status, delete_document, protect.
  rewrite Hauth.
  split; [| split; [| split; [| split]]].
  - unfold list_handler, try_catch, list_body, bind, get_db, readLocalMetadata, ret.
    simpl. by rewrite Hdb, Hempty.
  - by apply (missing_record_handlers GetDocument).
  - by apply (missing_record_handlers DeleteDocument).
  - intros Hs. by apply (missing_record_handlers PatchStatus).
  - intros Hval Hwrite. fold (protect upload_handler e req w).
    change (protect upload_handler) with post_upload.
    destruct (accepted_upload_run e req w user Hauth Hval) as (f & Hf & ->).
    { unfold store_accepts. by rewrite Hdb. }
    exists f. split; [done |]. by rewrite Hdb, Hempty.
Qed.

Lemma unreadable_metadata_counts_as_empty_witness :
  get_documents sample_env
    (request (Some "Bearer token-alice") "local-1-1" JUndefined (Some small_pdf))
    garbled_world
  = (respond 200 (BDocuments []), garbled_world)
  ∧ ∃ f, local_metadata
           (post_upload sample_env
              (request (Some "Bearer token-alice") "local-1-1" JUndefined
                 (Some small_pdf)) garbled_world).2
         = Holding [local_entry sample_env alice f].
Proof.
  destruct (unreadable_metadata_counts_as_empty sample_env
              (request (Some "Bearer token-alice") "local-1-1" JUndefined (Some small_pdf))
              garbled_world alice eq_refl eq_refl (or_intror eq_refl))
    as (Hlist & _ & _ & _ & Hup).
  split; [exact Hlist |].
  destruct (Hup eq_refl eq_refl) as (f & _ & Hfile). by exists f.
Defined.

(** One good local upload puts one entry, with the id of its environment,
    in front of the stored list. *)
Lemma good_local_upload_step job w :
  db w = false →
  good_local_upload job →
  db (post_upload job.1 job.2 w).2 = false
  ∧ ∃ entry, id entry = local_id job.1
             ∧ local_docs (post_upload job.1 job.2 w).2 = entry :: local_docs w.
Proof.
  intros Hdb ([user Hauth] & Hval & Hwrite).
  destruct (accepted_upload_run job.1 job.2 w user Hauth Hval) as (f & Hf & ->).
  { unfold store_accepts. by rewrite Hdb. }
  rewrite Hdb. split; [done |]. by exists (local_entry job.1 user f).
Qed.

(** X14. Valid uploads served one after another by the local backend, each
    with a successful write, add one record each: from a store holding n
    records, a batch of N leaves n + N, the newest first, and the new ids
    are the "local-<time>-<random>" ids of the requests in reverse order of
    arrival. *)
Theorem sequential_local_uploads_all_recorded
  (batch : list (Env * Request)) (w : World) :
  db w = false →
  Forall good_local_upload batch →
  length (local_docs (run_uploads batch w)) = (length batch + length (local_docs w))%nat
  ∧ id <$> local_docs (run_uploads batch w)
    = (reverse ((λ job, local_id job.1) <$> batch) ++ (id <$> local_docs w))%list.
Proof.
  intros Hdb Hall. revert w Hdb.
  induction Hall as [| [e req] batch Hjob _ IH]; intros w Hdb; [done |].
  destruct (good_local_upload_step (e, req) w Hdb Hjob) as (Hdb' & entry & Hid & Hdocs).
  simpl in *. destruct (IH _ Hdb') as [Hlen Hids].
  rewrite Hlen, Hids, Hdocs. split; [simpl; lia |].
  rewrite reverse_cons, <- app_assoc. simpl. by rewrite Hid.
Qed.

Lemma sequential_local_uploads_all_recorded_witness :
  let batch :=
    [ (sample_env, request (Some "Bearer token-alice") "" JUndefined (Some small_pdf));
      (second_upload_env,
       request (Some "Bearer token-bob") "" JUndefined (Some small_pdf)) ] in
  length (local_docs (run_uploads batch empty_local_world)) = 2%nat
  ∧ id <$> local_docs (run_uploads batch empty_local_world)
    = [ "local-1700000000901-8"; "local-1700000000005-42" ].
Proof.
  intros batch.
  apply (sequential_local_uploads_all_recorded batch empty_local_world eq_refl).
  repeat constructor; by eexists.
Defined.

(** ** Generated ids and names *)

Lemma pretty_N_char_digit x : is_digit (pretty_N_char x) = true.
Proof. unfold pretty_N_char. by repeat case_match. Qed.

Lemma pretty_N_go_digits x s :
  all_digits s = true → all_digits (pretty_N_go x s) = true.
Proof.
  revert s. induction (N.lt_wf_0 x) as [x _ IH]; intros s Hs.
  destruct (decide (x = 0)%N) as [-> | Hx]; [by rewrite pretty_N_go_0 |].
  rewrite pretty_N_go_step by lia.
  apply IH; [apply N.div_lt; lia |]. simpl. by rewrite pretty_N_char_digit.
Qed.

Lemma num_to_string_digits n : all_digits (num_to_string n) = true.
Proof.
  unfold num_to_string, pretty, pretty_N.
  destruct (decide (n = 0)%N); [done |]. by apply pretty_N_go_digits.
Qed.

(** Two digit strings followed by a non-digit agree when the wholes do. *)
Lemma digits_then_rest (s1 s2 : string) (c1 c2 : ascii) (t1 t2 : string) :
  all_digits s1 = true → all_digits s2 = true →
  is_digit c1 = false → is_digit c2 = false →
  s1 +:+ String c1 t1 = s2 +:+ String c2 t2 →
  s1 = s2 ∧ c1 = c2 ∧ t1 = t2.
Proof.
  revert s2. induction s1 as [| a s1 IH]; intros [| b s2]; simpl;
    intros Hs1 Hs2 Hc1 Hc2 Heq.
  - by injection Heq as -> ->.
  - injection Heq as -> _. apply andb_prop in Hs2 as [Hb _]. congruence.
  - injection Heq as -> _. apply andb_prop in Hs1 as [Ha _]. congruence.
  - injection Heq as -> Heq.
    apply andb_prop in Hs1 as [_ Hs1]. apply andb_prop in Hs2 as [_ Hs2].
    destruct (IH s2 Hs1 Hs2 Hc1 Hc2 Heq) as (-> & -> & ->). done.
Qed.

(** X15. Two local record ids coincide exactly when both the Date.now()
    value and the random number they were built from coincide: distinct
    (time, random) pairs always give distinct ids, and equal pairs give the
    same id. *)
Theorem local_id_collides_iff_same_draw (e1 e2 : Env) :
  local_id e1 = local_id e2 ↔
  clock_id e1 = clock_id e2 ∧ rand_id e1 = rand_id e2.
Proof.
  split.
  - unfold local_id. simpl. intros Heq.
    repeat (injection Heq as Heq).
    destruct (digits_then_rest _ _ "-" "-" _ _
                (num_to_string_digits (clock_id e1))
                (num_to_string_digits (clock_id e2)) eq_refl eq_refl Heq)
      as (Hclock & _ & Hrand).
    split; by apply (inj pretty).
  - intros [Hc Hr]. unfold local_id. by rewrite Hc, Hr.
Qed.

Lemma local_id_collides_iff_same_draw_witness :
  local_id sample_env ≠ local_id second_upload_env.
Proof.
  intros Heq.
  apply (local_id_collides_iff_same_draw sample_env second_upload_env) in Heq
    as [Hclock _].
  discriminate Hclock.
Defined.

(** ** The bearer token *)

Lemma substring_all s : String.substring 0 (String.length s) s = s.
Proof. induction s as [| c s IH]; simpl; [done |]. by rewrite IH. Qed.

Lemma bearer_prefix_has_space t :
  String.prefix "Bearer " t = true → no_space t = false.
Proof.
  repeat (destruct t as [| ? t]; [done |]; cbn [String.prefix];
          match goal with
          | |- context [ascii_dec ?a ?b] =>
              destruct (ascii_dec a b) as [<- | _]; [| done]
          end).
  intros _. reflexivity.
Qed.

Lemma before_sep_without_space t :
  no_space t = true → before_sep "Bearer " t = t.
Proof.
  induction t as [| c t IH]; [done |]. intros Hns.
  cbn [before_sep].
  destruct (String.prefix "Bearer " (String c t)) eqn:Hpre.
  { apply bearer_prefix_has_space in Hpre. congruence. }
  simpl in Hns. apply andb_prop in Hns as [_ Hns]. by rewrite IH.
Qed.

(** X16. For a header "Bearer <token>" whose token holds no space, the
    string handed to the identity provider is the token itself, and the
    request is authenticated as whatever principal the provider returns for
    it (401 "Unauthorized" when it rejects the token). *)
Theorem bearer_token_passed_verbatim (e : Env) (req : Request) (token : string) :
  authorization req = Some ("Bearer " +:+ token) →
  no_space token = true →
  verifyToken e req =
  match verifyIdToken e token with
  | Some principal => inr principal
  | None => inl (respond 401 (BMessage false "Unauthorized"))
  end.
Proof.
  intros Hh Hns. unfold verifyToken. rewrite Hh.
  assert (Htoken : split_second "Bearer " ("Bearer " +:+ token) = token).
  { unfold split_second. simpl. rewrite Nat.sub_0_r, substring_all.
    by apply before_sep_without_space. }
  rewrite Htoken.
  assert (Hstart : startsWith ("Bearer " +:+ token) "Bearer " = true).
  { unfold startsWith. cbn. by destruct token. }
  rewrite Hstart. simpl. done.
Qed.

Lemma bearer_token_passed_verbatim_witness :
  verifyToken sample_env (request (Some "Bearer token-alice") "" JUndefined None)
  = inr alice.
Proof.
  apply (bearer_token_passed_verbatim sample_env
           (request (Some "Bearer token-alice") "" JUndefined None) "token-alice");
    reflexivity.
Defined.

(** A token that itself contains "Bearer " is cut at that point. *)
Example bearer_token_cut :
  split_second "Bearer " "Bearer abc Bearer def" = "abc ".
Proof. reflexivity. Qed.

(** ** Startup *)

Lemma strip_trailing_of_wrapped q s :
  Startup.is_quote q = true →
  Startup.strip_trailing_quote (s +:+ String q EmptyString) = s.
Proof.
  intros Hq. induction s as [| c s IH]; simpl; [by rewrite Hq |].
  rewrite IH. by destruct s.
Qed.

Lemma unescape_escape k :
  Startup.no_backslash k = true →
  Startup.unescape_newlines (Startup.escape_newlines k) = k.
Proof.
  induction k as [| c k IH]; [done |]. simpl.
  intros [Hc Hk]%andb_prop. specialize (IH Hk).
  destruct (Ascii.eqb_spec c Startup.newline) as [-> | Hnl].
  - cbn [Startup.unescape_newlines]. rewrite Ascii.eqb_refl. simpl. by rewrite IH.
  - cbn [Startup.unescape_newlines].
    destruct (Startup.escape_newlines k) as [| c2 rest] eqn:Hesc.
    + simpl in IH. by rewrite <- IH.
    + apply negb_true_iff in Hc. rewrite Hc. cbn [andb]. by rewrite IH.
Qed.

(** X17. Normalising the private key undoes the way a .env file holds it:
    for a key text without backslashes, written with its line feeds as
    backslash-n and wrapped in single or double quotes, [normalize_key]
    gives back the key text. *)
Theorem normalize_key_recovers_key (q : ascii) (k : string) :
  Startup.is_quote q = true →
  Startup.no_backslash k = true →
  Startup.normalize_key (Startup.wrap q (Startup.escape_newlines k)) = k.
Proof.
  intros Hq Hk. unfold Startup.normalize_key, Startup.strip_quotes, Startup.wrap.
  cbn [Startup.strip_leading_quote]. rewrite Hq.
  rewrite (strip_trailing_of_wrapped q _ Hq).
  by apply unescape_escape.
Qed.

Lemma normalize_key_recovers_key_witness :
  Startup.normalize_key "'KEY\nFROM\nENV'"
  = "KEY" +:+ String Startup.newline ("FROM" +:+ String Startup.newline "ENV").
Proof.
  apply (normalize_key_recovers_key Startup.single_quote
           ("KEY" +:+ String Startup.newline ("FROM" +:+ String Startup.newline "ENV")));
    reflexivity.
Defined.

(** X18. How the backend is chosen at startup.  Without a service-account
    file that loads and without all three discrete values set, [db] stays
    null.  A service-account file that loads and carries project_id,
    client_email and private_key decides the certificate alone, whatever the
    three discrete values are.  With no such file and the three values set,
    the certificate is made of them, the key normalised (when that leaves it
    non-empty).  In the last two cases [db] is set exactly when the
    initialisation does not throw. *)
Theorem backend_choice (env : Startup.ProcessEnv) (h : Startup.Host) :
  let path := Startup.FIREBASE_SERVICE_ACCOUNT_PATH env in
  let from_file :=
    match path with
    | Some p => if String.eqb p "" then None else Startup.loadServiceAccountFromPath h p
    | None => None
    end in
  (from_file = None →
   Startup.is_set (Startup.FIREBASE_PRIVATE_KEY env)
   && Startup.is_set (Startup.FIREBASE_CLIENT_EMAIL env)
   && Startup.is_set (Startup.FIREBASE_PROJECT_ID env) = false →
   Startup.select_backend env h = None)
  ∧ (∀ cred, from_file = Some cred →
       Startup.is_set (Startup.project_id cred) = true →
       Startup.is_set (Startup.client_email cred) = true →
       Startup.is_set (Startup.private_key cred) = true →
       let cert := {| Startup.cert_projectId := Startup.project_id cred;
                      Startup.cert_clientEmail := Startup.client_email cred;
                      Startup.cert_privateKey := Startup.private_key cred |} in
       Startup.select_backend env h
       = if Startup.initialize_throws h cert then None else Some cert)
  ∧ (∀ key, from_file = None →
       Startup.FIREBASE_PRIVATE_KEY env = Some key →
       key ≠ "" → Startup.normalize_key key ≠ "" →
       Startup.is_set (Startup.FIREBASE_CLIENT_EMAIL env) = true →
       Startup.is_set (Startup.FIREBASE_PROJECT_ID env) = true →
       let cert := {| Startup.cert_projectId := Startup.FIREBASE_PROJECT_ID env;
                      Startup.cert_clientEmail := Startup.FIREBASE_CLIENT_EMAIL env;
                      Startup.cert_privateKey := Some (Startup.normalize_key key) |} in
       Startup.select_backend env h
       = if Startup.initialize_throws h cert then None else Some cert).
Proof.
  intros path from_file. subst path from_file.
  unfold Startup.select_backend, Startup.find_credential.
  split; [| split].
  - intros Hfile Hnot. by rewrite Hfile, Hnot.
  - intros cred Hfile Hp He Hk. rewrite Hfile.
    unfold Startup.cert_of, Startup.js_or. by rewrite Hp, He, Hk.
  - intros key Hfile Hkey Hne Hnorm He Hp. rewrite Hfile, Hkey, He, Hp.
    assert (Hset : Startup.is_set (Some key) = true).
    { simpl. by destruct (String.eqb_spec key ""). }
    rewrite Hset. simpl.
    unfold Startup.cert_of, Startup.js_or. cbn [Startup.project_id
      Startup.client_email Startup.private_key].
    rewrite He, Hp.
    assert (Hnset : Startup.is_set (Some (Startup.normalize_key key)) = true).
    { simpl. by destruct (String.eqb_spec (Startup.normalize_key key) ""). }
    by rewrite Hnset.
Qed.

Lemma backend_choice_witness :
  Startup.select_backend (sample_process_env (Some "/etc/sa.json")) sample_host
  = Some {| Startup.cert_projectId := Some "proj-file";
            Startup.cert_clientEmail := Some "sa@proj-file.example";
            Startup.cert_privateKey := Some "KEY-FROM-FILE" |}
  ∧ Startup.select_backend (sample_process_env None) sample_host
    = Some {| Startup.cert_projectId := Some "proj-env";
              Startup.cert_clientEmail := Some "sa@proj-env.example";
              Startup.cert_privateKey :=
                Some (Startup.normalize_key "'KEY\nFROM\nENV'") |}.
Proof.
  split.
  - destruct (backend_choice (sample_process_env (Some "/etc/sa.json")) sample_host)
      as (_ & Hfile & _).
    exact (Hfile sample_account eq_refl eq_refl eq_refl eq_refl).
  - destruct (backend_choice (sample_process_env None) sample_host)
      as (_ & _ & Henv).
    apply (Henv "'KEY\nFROM\nENV'"); try reflexivity; discriminate.
Defined.

(** ** The router of routes/documents.js *)

Lemma set_collection_same w : set_collection (collection w) w = w.
Proof. by destruct w. Qed.

(** X19. The unauthenticated router treats an id Firestore does not hold as
    follows (no store failure assumed): GET /:id answers 404; PATCH
    /:id/status with a status answers 500 "Failed to update status",
    because the update of a missing document is rejected and there is no
    existence check; DELETE /:id answers 200 "Document deleted".  In all
    three cases the world is unchanged. *)
Theorem router_on_unknown_id (e : Env) (rid : string) (s : JsVal) (w : World) :
  collection w !! rid = None →
  firestore_read_fails e = false →
  firestore_write_fails e = false →
  DocumentsRouter.get_one e rid w = (not_found, w)
  ∧ (truthy s = true →
     DocumentsRouter.update_status e rid s w
     = (respond 500 (BMessage false "Failed to update status"), w))
  ∧ DocumentsRouter.delete_one e rid w
    = (respond 200 (BMessage true "Document deleted"), w).
Proof.
  intros Hnone Hread Hwrite. split; [| split].
  - unfold DocumentsRouter.get_one, try_catch, bind, docRef_get, ret.
    rewrite Hread. simpl. by rewrite Hnone.
  - intros Hs.
    unfold DocumentsRouter.update_status, try_catch, bind, docRef_update, ret.
    rewrite Hs. simpl. rewrite Hwrite. simpl. by rewrite Hnone.
  - unfold DocumentsRouter.delete_one, try_catch, bind, docRef_delete, ret.
    rewrite Hwrite. simpl. f_equal.
    rewrite delete_id by done. apply set_collection_same.
Qed.

Lemma router_on_unknown_id_witness :
  DocumentsRouter.update_status sample_env "no-such-id" (JStr "reviewed") remote_world
  = (respond 500 (BMessage false "Failed to update status"), remote_world).
Proof.
  destruct (router_on_unknown_id sample_env "no-such-id" (JStr "reviewed") remote_world
              eq_refl eq_refl eq_refl) as (_ & Hpatch & _).
  exact (Hpatch eq_refl).
Defined.

(** X20. The router's listing is not filtered by owner: when the query does
    not fail, GET / returns every document of the collection, whoever owns
    it, each once, ordered by uploadedAt with the latest first. *)
Theorem router_lists_every_document (e : Env) (w : World) :
  firestore_read_fails e = false →
  ∃ docs,
    DocumentsRouter.list_all e w = (respond 200 (BDocuments docs), w)
    ∧ docs ≡ₚ snapshot_docs (collection w)
    ∧ (∀ sd, sd ∈ docs ↔ collection w !! id sd = Some (fields sd))
    ∧ created_desc docs.
Proof.
  intros Hread. unfold DocumentsRouter.list_all, try_catch. rewrite Hread.
  eexists. split; [reflexivity |]. split; [apply merge_sort_Permutation |].
  split; [| apply query_sorted].
  intros sd. by rewrite merge_sort_Permutation, elem_of_snapshot_docs.
Qed.

Lemma router_lists_every_document_witness :
  ∃ docs,
    DocumentsRouter.list_all sample_env remote_world
      = (respond 200 (BDocuments docs), remote_world)
    ∧ {| id := "docB1"; fields := doc_b1 |} ∈ docs
    ∧ {| id := "docA1"; fields := doc_a1 |} ∈ docs.
Proof.
  destruct (router_lists_every_document sample_env remote_world eq_refl)
    as (docs & Hrun & _ & Hmem & _).
  exists docs. split; [exact Hrun |]. split; apply Hmem; reflexivity.
Defined.

(** ** The extension of a stored file *)

Lemma get_plain s i c :
  all_plain s = true → String.get i s = Some c → is_plain c = true.
Proof.
  revert i. induction s as [| a s IH]; intros i; simpl; [done |].
  intros [Ha Hs]%andb_prop. destruct i as [| i]; [by intros [= <-] |].
  by apply IH.
Qed.

Lemma get_in_range s i :
  (i < String.length s)%nat → ∃ c, String.get i s = Some c.
Proof.
  revert i. induction s as [| a s IH]; intros i; simpl; [lia |].
  destruct i as [| i]; [by eexists |]. intros Hi. apply IH. lia.
Qed.

Lemma all_plain_app s1 s2 :
  all_plain (s1 +:+ s2) = all_plain s1 && all_plain s2.
Proof. induction s1 as [| a s1 IH]; simpl; [done |]. by rewrite IH, andb_assoc. Qed.

Lemma digits_are_plain s : all_digits s = true → all_plain s = true.
Proof.
  induction s as [| a s IH]; simpl; [done |].
  intros [Ha Hs]%andb_prop. rewrite (IH Hs), andb_true_r.
  unfold is_digit in Ha. unfold is_plain.
  destruct (Ascii.eqb_spec a ".") as [-> | _]; [done |].
  by destruct (Ascii.eqb_spec a "/") as [-> | _].
Qed.

Lemma length_append s1 s2 :
  String.length (s1 +:+ s2) = (String.length s1 + String.length s2)%nat.
Proof. induction s1 as [| a s1 IH]; simpl; [done |]. by rewrite IH. Qed.

Lemma substring_after s1 s2 :
  String.substring (String.length s1) (String.length s2) (s1 +:+ s2) = s2.
Proof. induction s1 as [| a s1 IH]; simpl; [apply substring_all | exact IH]. Qed.

(** One iteration of the loop of [extname] on a character that is not a
    slash. *)
Lemma extname_loop_step path i c st :
  String.get i path = Some c → Ascii.eqb c "/" = false →
  extname_loop path (S i) st = extname_loop path i (ext_char (Z.of_nat i) c st).
Proof. intros Hget Hc. simpl. by rewrite Hget, Hc. Qed.

Lemma plain_not_slash c : is_plain c = true → Ascii.eqb c "/" = false.
Proof. unfold is_plain. intros [_ H]%andb_prop. by apply negb_true_iff. Qed.

Lemma plain_not_dot c : is_plain c = true → Ascii.eqb c "." = false.
Proof. unfold is_plain. intros [H _]%andb_prop. by apply negb_true_iff. Qed.

(** Plain characters after the last dot leave the state alone. *)
Lemma loop_over_body path base m stop :
  stop ≠ -1 →
  (∀ j, (j < m)%nat → ∃ c, String.get (base + j) path = Some c ∧ is_plain c = true) →
  extname_loop path (base + m) (scanning (-1) stop 0)
  = extname_loop path base (scanning (-1) stop 0).
Proof.
  intros Hstop. induction m as [| m IH]; intros Hchars.
  - by rewrite Nat.add_0_r.
  - destruct (Hchars m) as (c & Hget & Hc); [lia |].
    rewrite Nat.add_succ_r.
    rewrite (extname_loop_step _ _ c _ Hget (plain_not_slash c Hc)).
    assert (Hsame : ext_char (Z.of_nat (base + m)) c (scanning (-1) stop 0)
                    = scanning (-1) stop 0).
    { unfold ext_char, scanning. simpl.
      rewrite (proj2 (Z.eqb_neq stop (-1)) Hstop), (plain_not_dot c Hc). done. }
    rewrite Hsame. apply IH. intros j Hj. apply Hchars. lia.
Qed.

(** Plain characters before the dot only record that there are some. *)
Lemma loop_over_stem path k dot stop before :
  dot ≠ -1 → stop ≠ -1 →
  (∀ j, (j < k)%nat → ∃ c, String.get j path = Some c ∧ is_plain c = true) →
  extname_loop path k (scanning dot stop before)
  = scanning dot stop (if k is O then before else -1).
Proof.
  intros Hdot Hstop. revert before. induction k as [| k IH]; intros before Hchars;
    [done |].
  destruct (Hchars k) as (c & Hget & Hc); [lia |].
  rewrite (extname_loop_step _ _ c _ Hget (plain_not_slash c Hc)).
  assert (Hmark : ext_char (Z.of_nat k) c (scanning dot stop before)
                  = scanning dot stop (-1)).
  { unfold ext_char, scanning. simpl.
    rewrite (proj2 (Z.eqb_neq stop (-1)) Hstop), (plain_not_dot c Hc).
    simpl. by rewrite (proj2 (Z.eqb_neq dot (-1)) Hdot). }
  rewrite Hmark, IH; [by destruct k |]. intros j Hj. apply Hchars. lia.
Qed.

(** [extname] of a name made of a non-empty stem without dot or slash, a
    dot, and a non-empty rest without dot or slash. *)
Lemma extname_simple_name stem rest :
  all_plain stem = true → stem ≠ "" →
  all_plain rest = true → rest ≠ "" →
  extname (stem +:+ String "." rest) = String "." rest.
Proof.
  intros Hstem Hne Hrest Hrne.
  set (path := stem +:+ String "." rest).
  set (p := String.length stem).
  assert (Hp : (0 < p)%nat) by (subst p; destruct stem; simpl; [done | lia]).
  assert (∃ b, String.length rest = S b) as [b Hb].
  { destruct rest; [done |]. by eexists. }
  assert (Hlen : String.length path = S (p + 1 + b)).
  { subst path p. rewrite length_append. simpl. lia. }
  assert (Hget_stem : ∀ j, (j < p)%nat →
            ∃ c, String.get j path = Some c ∧ is_plain c = true).
  { intros j Hj. destruct (get_in_range stem j Hj) as [c Hc]. exists c.
    split; [| exact (get_plain stem j c Hstem Hc)].
    subst path. by rewrite <- append_correct1. }
  assert (Hget_dot : String.get p path = Some "."%char).
  { subst path p.
    pose proof (append_correct2 stem (String "." rest) 0) as Hhere.
    simpl in Hhere. by rewrite <- Hhere. }
  assert (Hget_rest : ∀ j, (j < S b)%nat →
            ∃ c, String.get (p + 1 + j) path = Some c ∧ is_plain c = true).
  { intros j Hj. destruct (get_in_range rest j) as [c Hc]; [lia |].
    exists c. split; [| exact (get_plain rest j c Hrest Hc)].
    subst path p.
    replace (String.length stem + 1 + j)%nat with (S j + String.length stem)%nat
      by lia.
    by rewrite <- (append_correct2 stem (String "." rest) (S j)). }
  unfold extname. fold path. rewrite Hlen.
  destruct (Hget_rest b) as (c & Hgetc & Hc); [lia |].
  rewrite (extname_loop_step _ _ c _ Hgetc (plain_not_slash c Hc)).
  set (stop := Z.of_nat (p + 1 + b) + 1).
  assert (Hfirst : ext_char (Z.of_nat (p + 1 + b)) c ext_init
                   = scanning (-1) stop 0).
  { unfold ext_char, ext_init, scanning. simpl. by rewrite (plain_not_dot c Hc). }
  rewrite Hfirst.
  rewrite (loop_over_body path (p + 1) b stop); [| lia |].
  2: { intros j Hj. apply Hget_rest. lia. }
  rewrite Nat.add_1_r.
  rewrite (extname_loop_step _ _ "."%char _ Hget_dot eq_refl).
  assert (Hdot : ext_char (Z.of_nat p) "." (scanning (-1) stop 0)
                 = scanning (Z.of_nat p) stop 0).
  { unfold ext_char, scanning. simpl.
    by rewrite (proj2 (Z.eqb_neq stop (-1))) by lia. }
  rewrite Hdot.
  rewrite (loop_over_stem path p (Z.of_nat p) stop 0); [| lia | lia | done].
  assert (Hseen : (if p is O then 0 else -1) = -1).
  { clear -Hp. clearbody p. destruct p; [lia | done]. }
  rewrite Hseen. cbn [startDot end_ preDotState startPart scanning].
  rewrite (proj2 (Z.eqb_neq (Z.of_nat p) (-1))) by lia.
  rewrite (proj2 (Z.eqb_neq stop (-1))) by lia.
  cbn [orb andb Z.eqb].
  replace (Z.to_nat (Z.of_nat p)) with (String.length stem) by (subst p; lia).
  replace (Z.to_nat (stop - Z.of_nat p))
    with (String.length (String "." rest)).
  - subst path. apply substring_after.
  - subst stop. simpl String.length. lia.
Qed.

(** X21. The name multer stores an accepted file under carries the
    lower-cased extension of the original name: for a part whose extension
    passes the filter, [path.extname] of the generated name
    "upload-<time>-<random><ext>" is that lower-cased extension, one of
    .pdf, .docx and .txt. *)
Theorem stored_name_keeps_allowed_extension (e : Env) (f : IncomingFile) :
  ext_ok f = true →
  extname (storage_filename e f) = toLowerCase (extname (in_originalname f))
  ∧ extname (storage_filename e f) ∈ ALLOWED_EXTS.
Proof.
  intros Hext. unfold ext_ok in Hext. apply bool_decide_eq_true in Hext.
  assert (Hname : extname (storage_filename e f)
                  = toLowerCase (extname (in_originalname f))).
  { unfold storage_filename.
    set (ext := toLowerCase (extname (in_originalname f))) in *.
    set (stem := "upload-" +:+ num_to_string (clock_file e) +:+ "-"
                 +:+ num_to_string (rand_file e)).
    assert (Hstem : all_plain stem = true).
    { subst stem. simpl. rewrite !all_plain_app.
      rewrite (digits_are_plain _ (num_to_string_digits (clock_file e))). simpl.
      by rewrite (digits_are_plain _ (num_to_string_digits (rand_file e))). }
    assert (Hcases : ext = ".pdf" ∨ ext = ".docx" ∨ ext = ".txt").
    { unfold ALLOWED_EXTS in Hext.
      apply elem_of_union in Hext as [Hext | Hext];
        [apply elem_of_union in Hext as [Hext | Hext] |];
        apply elem_of_singleton in Hext; auto. }
    change ("upload-" +:+ (num_to_string (clock_file e) +:+ "-"
              +:+ num_to_string (rand_file e)) +:+ ext)
      with (stem +:+ ext).
    destruct Hcases as [-> | [-> | ->]];
      by apply extname_simple_name. }
  split; [exact Hname | by rewrite Hname].
Qed.

Lemma stored_name_keeps_allowed_extension_witness :
  extname (storage_filename sample_env small_pdf) = ".pdf".
Proof.
  apply (stored_name_keeps_allowed_extension sample_env small_pdf). reflexivity.
Defined.

(** X22. getById by the owner of an existing record, with no store failure,
    is answered 200 with the id and the record exactly as stored, and
    changes nothing. *)
Theorem owner_fetches_record
  (e : Env) (req : Request) (w : World) (user : Principal) (d : Doc) :
  verifyToken e req = inr user →
  stored_record w (params_id req) = Some d →
  userId d = uid user →
  (db w = true → firestore_read_fails e = false) →
  get_document e req w = (respond 200 (BDocument (params_id req) d), w).
Proof.
  intros Hauth Hd Hown Hread.
  unfold get_document, protect. rewrite Hauth, get_handler_steps. cbv zeta.
  unfold stored_record in Hd. destruct (db w) eqn:Hdb.
  - by rewrite (Hread eq_refl), Hd, (owner_test _ _ Hown).
  - destruct (find_by_id (params_id req) (local_docs w)) as [[idx sd] |] eqn:Hfind;
      [| done].
    simpl in Hd. injection Hd as <-.
    apply find_by_id_hit in Hfind as (_ & Hid & _).
    by rewrite (owner_test _ _ Hown), Hid.
Qed.

Lemma owner_fetches_record_witness :
  get_document sample_env
    (request (Some "Bearer token-bob") "local-3-3" JUndefined None) local_world
  = (respond 200 (BDocument "local-3-3" doc_b1), local_world).
Proof.
  apply (owner_fetches_record sample_env
           (request (Some "Bearer token-bob") "local-3-3" JUndefined None)
           local_world bob doc_b1); reflexivity || discriminate.
Defined.

(** In the local array a delete filters by id alone: with two entries
    under one id, the owner of the first removes the other one too. *)
Example local_delete_takes_same_id_entries :
  let w := {| db := false; collection := ∅;
              local_metadata :=
                Holding [ {| id := "local-9-9"; fields := doc_a1 |};
                          {| id := "local-9-9"; fields := doc_b1 |} ];
              disk := ∅ |} in
  local_docs (delete_document sample_env
                (request (Some "Bearer token-alice") "local-9-9" JUndefined None) w).2
  = [].
Proof. reflexivity. Qed.

(** ** A valid upload that creates no record *)


(** ** The local store after a run of requests *)

(** What one request does to the local metadata array: nothing, or an
    upload puts its entry in front, or a status update replaces the status
    of one entry, or a delete filters the entries of one id out. *)
Lemma serve_local_docs ep e req w :
  db w = false →
  let l := local_docs w in
  let l' := local_docs (serve ep e req w).2 in
  l' = l
  ∨ (ep = PostUpload
     ∧ ∃ user f, verifyToken e req = inr user ∧ validate_in_order req = None
                 ∧ l' = local_entry e user f :: l)
  ∨ (∃ idx sd s, l !! idx = Some sd
                 ∧ l' = <[idx := {| id := id sd; fields := set_status s (fields sd) |}]> l)
  ∨ (∃ rid, l' = filter (λ r, id r ≠ rid) l).
Proof.
  intros Hdb. cbv zeta.
  destruct (verifyToken e req) as [resp | user] eqn:Hauth.
  { left. unfold serve, protect. by rewrite Hauth. }
  rewrite (serve_authenticated ep e req w user Hauth).
  destruct ep; simpl after_auth.
  - destruct (upload_effect user e req w)
      as [(rej & _ & ->) | (f & Hf & Hval & [H | [H | [H | H]]])].
    + by left.
    + destruct H as (Hdb' & _). congruence.
    + destruct H as (Hdb' & _). congruence.
    + destruct H as (_ & _ & ->). by left.
    + destruct H as (_ & _ & ->). right; left. split; [done |].
      exists user, f. done.
  - left. by rewrite (read_handler_keeps_world GetDocuments).
  - left. by rewrite (read_handler_keeps_world GetDocument).
  - destruct (patch_effect user e req w)
      as [-> | [(_ & Hdb' & _) | (_ & _ & _ & idx & sd & Hfind & _ & ->)]].
    + by left.
    + congruence.
    + right; right; left. exists idx, sd, (body_status req).
      destruct (find_by_id_hit _ _ _ _ Hfind) as (Hidx & _). done.
  - destruct (delete_effect user e req w)
      as [-> | (d & w1 & _ & _ & _ & Hw1 & [H | [H | [H | H]]])].
    + by left.
    + destruct H as (Hdb' & _). congruence.
    + destruct H as (Hdb' & _). congruence.
    + destruct H as (_ & _ & ->). left.
      by destruct Hw1 as [(-> & _) | (-> & _)].
    + destruct H as (_ & _ & ->). right; right; right.
      by exists (params_id req).
  - left. by rewrite (read_handler_keeps_world GetProfile).
Qed.

(** Filtering a list keeps what is known of its entries, and their order. *)
Lemma Forall2_filter_sorted {A B} (P : A → B → Prop) (R : relation A)
  (Q : B → Prop) `{∀ y, Decision (Q y)} (ks : list A) (l : list B) :
  Forall2 P ks l → StronglySorted R ks →
  ∃ ks', Forall2 P ks' (filter Q l) ∧ StronglySorted R ks' ∧ ks' ⊆ ks.
Proof.
  induction 1 as [| k y ks l Hky Hrest IH]; intros Hsorted.
  { exists []. repeat split; [constructor | constructor | done]. }
  apply StronglySorted_inv in Hsorted as [Hs Hall].
  destruct (IH Hs) as (ks' & Hks' & Hs' & Hsub).
  rewrite filter_cons. destruct (decide (Q y)).
  - exists (k :: ks'). split; [by constructor |]. split.
    + constructor; [done |]. rewrite Forall_forall in Hall |- *.
      intros x Hx. apply Hall, Hsub, Hx.
    + intros x [-> | Hx]%elem_of_cons; [left | right; by apply Hsub].
  - exists ks'. split; [done |]. split; [done |].
    intros x Hx. right. by apply Hsub.
Qed.

Lemma created_by_later_run served rest k sd :
  created_by served k sd → created_by (served ++ rest) k sd.
Proof.
  intros (e & req & user & Hk & H). exists e, req, user. split; [| done].
  by apply lookup_app_l_Some.
Qed.

(** One more request keeps the array in the order latest created first;
    the requests that created its entries are among those served. *)
Lemma serve_keeps_creation_order served ep e req w ks :
  db w = false →
  Forall2 (created_by served) ks (local_docs w) →
  StronglySorted later ks →
  Forall (λ k, k < length served)%nat ks →
  ∃ ks', Forall2 (created_by (served ++ [(ep, e, req)])) ks'
           (local_docs (serve ep e req w).2)
         ∧ StronglySorted later ks'
         ∧ Forall (λ k, k < length (served ++ [(ep, e, req)]))%nat ks'.
Proof.
  intros Hdb Hks Hsorted Hbound.
  assert (Forall2 (created_by (served ++ [(ep, e, req)])) ks (local_docs w)) as Hks'.
  { eapply Forall2_impl; [exact Hks |]. intros k sd. apply created_by_later_run. }
  assert (Forall (λ k, k < length (served ++ [(ep, e, req)]))%nat ks) as Hbound'.
  { eapply Forall_impl; [exact Hbound |]. intros k Hk. simpl in Hk. rewrite length_app. simpl. lia. }
  destruct (serve_local_docs ep e req w Hdb)
    as [-> | [(-> & user & f & Hauth & Hval & ->)
             | [(idx & sd & s & Hidx & ->) | (rid & ->)]]].
  - by exists ks.
  - exists (length served :: ks). split; [| split].
    + constructor; [| done]. exists e, req, user.
      split; [by apply list_lookup_middle |]. by repeat split.
    + constructor; [done |]. exact Hbound.
    + constructor; [| done]. rewrite length_app. simpl. lia.
  - exists ks. split; [| done].
    destruct (Forall2_lookup_r _ _ _ _ _ Hks' Hidx) as (k & Hk & Hcreated).
    rewrite <- (list_insert_id ks idx k Hk).
    apply Forall2_insert; [done |].
    destruct Hcreated as (e0 & req0 & user0 & Hjob & Hauth & Hval & Hid & Howner & Ht).
    by exists e0, req0, user0.
  - destruct (Forall2_filter_sorted _ later (λ r, id r ≠ rid) ks _ Hks' Hsorted)
      as (ks' & Hf & Hs & Hsub).
    exists ks'. split; [done |]. split; [done |].
    rewrite Forall_forall in Hbound' |- *. intros k Hk. by apply Hbound', Hsub.
Qed.

Lemma serve_all_db jobs w : db (serve_all jobs w) = db w.
Proof.
  revert w. induction jobs as [| [[ep e] req] rest IH]; intros w; [done |].
  simpl. rewrite IH. apply db_unchanged.
Qed.

(** A run of requests leaves the array in the order latest created first. *)
Lemma run_keeps_creation_order rest served w ks :
  db w = false →
  Forall2 (created_by served) ks (local_docs w) →
  StronglySorted later ks →
  Forall (λ k, k < length served)%nat ks →
  latest_created_first (served ++ rest) (local_docs (serve_all rest w)).
Proof.
  revert served w ks.
  induction rest as [| [[ep e] req] rest IH]; intros served w ks Hdb Hks Hsorted Hbound.
  { rewrite app_nil_r. by exists ks. }
  destruct (serve_keeps_creation_order served ep e req w ks Hdb Hks Hsorted Hbound)
    as (ks' & Hks' & Hsorted' & Hbound').
  rewrite cons_middle, app_assoc. simpl serve_all. apply (IH _ _ ks'); [| done | done | done].
  by rewrite db_unchanged.
Qed.

(** The entries of a store built by a run hold the timestamp sentinel, so
    that any two of them are ordered by [uploadedAt]. *)
Lemma created_entries_desc jobs ks docs :
  Forall2 (created_by jobs) ks docs → created_desc docs.
Proof.
  induction 1 as [| k sd ks docs Hk Hrest IH]; [constructor |].
  constructor; [exact IH |].
  apply Forall_forall. intros sd' Hin.
  destruct (list_elem_of_lookup_1 _ _ Hin) as (i & Hi).
  destruct (Forall2_lookup_r _ _ _ _ _ Hrest Hi) as (k' & _ & Hk').
  destruct Hk' as (e & req & user & _ & _ & _ & _ & _ & Ht).
  unfold created_ge. rewrite Ht. by destruct (uploadedAt (fields sd)).
Qed.

(** C2. For an authenticated caller X, listByOwner returns exactly the
    records whose ownerId is X, latest created first, in both backends.
    Remote: on any collection, the listing holds exactly X's documents,
    ordered by createdAt descending.  Local: on any store that a run of
    requests has built from an empty one, the listing holds exactly X's
    entries of the metadata file, every entry was created by an upload of
    the run, and an entry created later in the run comes earlier in the
    listing; the entries all hold the timestamp sentinel, so that the
    listing is ordered by createdAt as well. *)
Theorem listing_by_owner_latest_first
  (e : Env) (req : Request) (user : Principal) (w0 : World) (jobs : list Job) :
  verifyToken e req = inr user →
  (∀ w, db w = true → firestore_read_fails e = false →
     ∃ docs,
       serve GetDocuments e req w = (respond 200 (BDocuments docs), w)
       ∧ (∀ sd, sd ∈ docs ↔
                collection w !! id sd = Some (fields sd) ∧ userId (fields sd) = uid user)
       ∧ created_desc docs)
  ∧ (db w0 = false → local_docs w0 = [] →
     ∃ docs,
       serve GetDocuments e req (serve_all jobs w0)
       = (respond 200 (BDocuments docs), serve_all jobs w0)
       ∧ (∀ sd, sd ∈ docs ↔
                sd ∈ local_docs (serve_all jobs w0) ∧ userId (fields sd) = uid user)
       ∧ latest_created_first jobs docs
       ∧ created_desc docs).
Proof.
  intros Hauth. split.
  - intros w Hdb Hread.
    destruct (list_by_owner e req w user Hauth) as [_ Hremote].
    destruct (Hremote Hdb Hread) as (docs & Hrun & Hmem & _ & Hsorted).
    by exists docs.
  - intros Hdb Hempty.
    destruct (list_by_owner e req (serve_all jobs w0) user Hauth) as [Hlocal _].
    rewrite serve_all_db in Hlocal. destruct (Hlocal Hdb) as [Hrun Hmem].
    eexists. split; [exact Hrun |]. split; [exact Hmem |].
    destruct (run_keeps_creation_order jobs [] w0 [] Hdb) as (ks & Hks & Hsorted).
    { rewrite Hempty. constructor. }
    { constructor. }
    { constructor. }
    simpl in Hks.
    destruct (Forall2_filter_sorted _ later (λ d, userId (fields d) = uid user)
                ks _ Hks Hsorted) as (ks' & Hks' & Hsorted' & _).
    split; [by exists ks' |]. by eapply created_entries_desc.
Qed.

Lemma listing_by_owner_latest_first_witness :
  verifyToken sample_env (request (Some "Bearer token-alice") "" JUndefined None)
  = inr alice
  ∧ db empty_local_world = false
  ∧ local_docs empty_local_world = []
  ∧ ∃ docs,
      serve GetDocuments sample_env
        (request (Some "Bearer token-alice") "" JUndefined None)
        (serve_all sample_run empty_local_world)
      = (respond 200 (BDocuments docs), serve_all sample_run empty_local_world)
      ∧ (∀ sd, sd ∈ docs ↔
               sd ∈ local_docs (serve_all sample_run empty_local_world)
               ∧ userId (fields sd) = uid alice)
      ∧ latest_created_first sample_run docs
      ∧ created_desc docs.
Proof.
  split; [reflexivity |]. split; [reflexivity |]. split; [reflexivity |].
  exact (proj2 (listing_by_owner_latest_first sample_env
                  (request (Some "Bearer token-alice") "" JUndefined None)
                  alice empty_local_world sample_run eq_refl)
           eq_refl eq_refl).
Defined.

(** The listing of the sample run for alice: her second upload, then her
    first with the status she set; bob's entry is left out. *)
Example sample_run_listing :
  (serve GetDocuments sample_env
     (request (Some "Bearer token-alice") "" JUndefined None)
     (serve_all sample_run empty_local_world)).1
  = respond 200 (BDocuments
      [ local_entry third_upload_env alice small_pdf;
        {| id := local_id sample_env;
           fields := set_status (JStr "reviewed")
                       (docData_of alice (accepted_file sample_env small_pdf)) |} ]).
Proof. vm_compute. reflexivity. Qed.

(** ** Concurrent creates on the local store *)

(** The local branch of an accepted upload is its two file accesses, one
    after the other: the array is read, and written back with the new entry
    in front. *)
Lemma local_create_is_read_then_write e req w user :
  verifyToken e req = inr user →
  db w = false →
  validate_in_order req = None →
  ∃ f w1,
    part_file req = Some f
    ∧ create_read w1 = create_read w
    ∧ (post_upload e req w).2
      = create_write e (local_entry e user f) (create_read w1) w1.
Proof.
  intros Hauth Hdb Hval.
  unfold post_upload, protect. rewrite Hauth.
  destruct (upload_effect user e req w)
    as [(rej & Hrej & _) | (f & Hf & _ & [H | [H | [H | H]]])].
  - congruence.
  - destruct H as (Hdb' & _). congruence.
  - destruct H as (Hdb' & _). congruence.
  - destruct H as (_ & Hfail & ->). exists f, (after_multer e f w).
    split; [done |]. split; [done |].
    unfold create_write, writeLocalMetadata. by rewrite Hfail.
  - destruct H as (_ & Hfail & ->). exists f, (after_multer e f w).
    split; [done |]. split; [done |].
    unfold create_write, writeLocalMetadata. by rewrite Hfail.
Qed.

Lemma local_id_of_draw (job : Env * Request) : local_id job.1 = id_of_draw (draw job).
Proof. reflexivity. Qed.

(** Two draws give the same id only when they are the same draw. *)
Lemma id_of_draw_inj (d1 d2 : N * N) : id_of_draw d1 = id_of_draw d2 → d1 = d2.
Proof.
  destruct d1 as [c1 r1], d2 as [c2 r2]. unfold id_of_draw. simpl. intros Heq.
  repeat (injection Heq as Heq).
  destruct (digits_then_rest _ _ "-" "-" _ _
              (num_to_string_digits c1) (num_to_string_digits c2)
              eq_refl eq_refl Heq) as (Hclock & _ & Hrand).
  f_equal; by apply (inj pretty).
Qed.

(** The ids in the file after serving good uploads one after another: the
    ids of the uploads, the last served first, before the ids that were
    there. *)
Lemma run_uploads_ids (served : list (Env * Request)) (w : World) :
  db w = false →
  Forall good_local_upload served →
  id <$> local_docs (run_uploads served w)
  = (reverse ((λ job, id_of_draw (draw job)) <$> served) ++ (id <$> local_docs w))%list.
Proof.
  intros Hdb Hall. revert w Hdb.
  induction Hall as [| [e req] served Hjob _ IH]; intros w Hdb; [done |].
  destruct (good_local_upload_step (e, req) w Hdb Hjob) as (Hdb' & entry & Hid & Hdocs).
  simpl in *. rewrite (IH _ Hdb'), Hdocs.
  rewrite reverse_cons, <- app_assoc. simpl. by rewrite Hid.
Qed.

(** C9, as the code has it.  The local create branch reads and writes the
    metadata file without yielding in between, so that within the server
    process concurrent creates run their read-modify-write cycles one after
    another, in some order.  For N creates that are authenticated, valid
    and whose write goes through, against an empty local store and served
    in any order, the file ends with exactly N records, one under the id of
    each create: no write is lost.  The N ids are distinct exactly when the
    (Date.now(), random) pairs the creates drew are distinct. *)
Theorem concurrent_local_creates
  (batch served : list (Env * Request)) (w : World) :
  db w = false →
  local_docs w = [] →
  Forall good_local_upload batch →
  served ≡ₚ batch →
  length (local_docs (run_uploads served w)) = length batch
  ∧ id <$> local_docs (run_uploads served w) ≡ₚ (λ job, local_id job.1) <$> batch
  ∧ (NoDup (id <$> local_docs (run_uploads served w)) ↔ NoDup (draw <$> batch)).
Proof.
  intros Hdb Hempty Hall Hperm.
  assert (Forall good_local_upload served) as Hall' by by rewrite Hperm.
  pose proof (run_uploads_ids served w Hdb Hall') as Hids.
  rewrite Hempty, app_nil_r in Hids.
  assert (id <$> local_docs (run_uploads served w)
          ≡ₚ id_of_draw <$> (draw <$> batch)) as Hsame.
  { rewrite Hids, reverse_Permutation, Hperm. by rewrite <- list_fmap_compose. }
  split; [| split].
  - rewrite <- (length_fmap id), Hsame. by rewrite !length_fmap.
  - rewrite Hsame. by rewrite <- list_fmap_compose.
  - rewrite Hsame. split.
    + apply NoDup_fmap_1.
    + apply NoDup_fmap_2. intros d1 d2. apply id_of_draw_inj.
Qed.

Lemma concurrent_local_creates_witness :
  db empty_local_world = false
  ∧ local_docs empty_local_world = []
  ∧ Forall good_local_upload two_uploads
  ∧ reverse two_uploads ≡ₚ two_uploads
  ∧ length (local_docs (run_uploads (reverse two_uploads) empty_local_world)) = 2%nat
  ∧ NoDup (id <$> local_docs (run_uploads (reverse two_uploads) empty_local_world)).
Proof.
  assert (Forall good_local_upload two_uploads) as Hgood.
  { repeat constructor; solve [by exists alice | by exists bob]. }
  assert (NoDup (draw <$> two_uploads)) as Hdraws.
  { apply (bool_decide_unpack _). vm_compute. exact I. }
  destruct (concurrent_local_creates two_uploads (reverse two_uploads)
              empty_local_world eq_refl eq_refl Hgood (reverse_Permutation _))
    as (Hlen & _ & Hdistinct).
  split; [reflexivity |]. split; [reflexivity |]. split; [exact Hgood |].
  split; [apply reverse_Permutation |]. split; [exact Hlen |].
  apply Hdistinct, Hdraws.
Defined.

(** Counterexample to C9 as stated.  Two valid creates against an empty
    local store that draw the same time and the same random number leave
    two records under one id.  And the cycle is not protected by a lock:
    when two writers that do not share the server's event loop both read
    the empty file before either writes, the file ends with the second
    writer's record only, and the first write is lost. *)
Lemma concurrent_creates_collide_or_drop :
  let entryA := local_entry sample_env alice small_pdf in
  let entryB := local_entry second_upload_env bob small_pdf in
  id <$> local_docs (run_uploads same_draw_uploads empty_local_world)
  = [ local_id sample_env; local_id sample_env ]
  ∧ local_docs (run_uploads two_uploads empty_local_world) = [ entryB; entryA ]
  ∧ local_docs (interleaved_creates sample_env second_upload_env entryA entryB
                  empty_local_world)
    = [ entryB ].
Proof. repeat split; vm_compute; reflexivity. Qed.

(** ** The files of the upload directory *)



